(** * Chat surface: viewport synchronisation, scroll anchoring and
      incremental append

    A shallow embedding of [src/components/ChatInterface.tsx] (the
    [useLayoutEffect] variant with touch tracking), with the
    [handleVisualViewportChange] handler of the sibling variant.

    Conventions of the embedding.
    - A JavaScript string is the list of its UTF-16 code units.
    - Layout quantities ([scrollTop], [scrollHeight], [clientHeight],
      the visual viewport's [height] and [offsetTop]) are integers.
    - React state ([messages], [input], [isStreaming]) is passed
      explicitly.  A functional update [setMessages(f)] is queued: [f]
      runs at the render that follows the callback, and reads the
      variables it closes over as they are by then.
    - An assignment to [scrollTop] stores the assigned value.
    - Callbacks run to completion, one at a time; [Date.now()] is an
      input of the callback that reads it.
    - The host's timer table is a finite map from timer ids to the
      closures that [setTimeout] and [setInterval] registered. *)

From Stdlib Require Import ZArith NArith String Ascii DecimalString Lia.
From Stdlib Require DecimalPos DecimalZ.
From stdpp Require Import base list gmap.

(** ** JavaScript strings *)

Module Js.

Abbreviation JsString := (list N).

(** The code units of an ASCII literal. *)
Definition lit (s : string) : JsString :=
  map N_of_ascii (list_ascii_of_string s).

(** ECMAScript [WhiteSpace] and [LineTerminator] code points, the
    ones [String.prototype.trim] strips. *)
Definition isWhiteSpace (c : N) : bool :=
  ((9 <=? c) && (c <=? 13) || (c =? 32) || (c =? 160) || (c =? 5760)
   || (8192 <=? c) && (c <=? 8202) || (c =? 8232) || (c =? 8233)
   || (c =? 8239) || (c =? 8287) || (c =? 12288) || (c =? 65279))%N.

Fixpoint trimStart (s : JsString) : JsString :=
  match s with
  | [] => []
  | c :: s' => if isWhiteSpace c then trimStart s' else s
  end.

Definition trimEnd (s : JsString) : JsString :=
  reverse (trimStart (reverse s)).

Definition trim (s : JsString) : JsString := trimEnd (trimStart s).

(** Truthiness of a string: the empty string is the only falsy one. *)
Definition truthy (s : JsString) : bool :=
  match s with [] => false | _ :: _ => true end.

(** [s.charAt(k)]: the one-unit string at index [k], or the empty
    string out of range. *)
Definition charAt (s : JsString) (k : nat) : JsString :=
  match s !! k with
  | Some c => [c]
  | None => []
  end.

(** [n.toString()] for an integer [n]. *)
Definition toString (n : Z) : JsString :=
  lit (NilZero.string_of_int (Z.to_int n)).

End Js.

Import Js.

(** ** The DOM objects the component touches *)

(** [style.height]: the JSX fallback ['100%'] or a pixel length. *)
Inductive CssHeight :=
| Full
| Px (h : Z).

(** [style.transform]: unset, or [translate3d(0, y px, 0)]. *)
Inductive CssTransform :=
| NoTransform
| Translate3d (y : Z).

Record Style := mkStyle {
  style_height : CssHeight;
  style_transform : CssTransform
}.

Record ScrollArea := mkScrollArea {
  scrollTop : Z;
  scrollHeight : Z;
  clientHeight : Z
}.

Record VisualViewport := mkVisualViewport {
  height : Z;
  offsetTop : Z
}.

(** The refs and globals read by the handlers.  [textareaFocused] is
    the test [document.activeElement === textareaRef.current]. *)
Record Dom := mkDom {
  containerRef : option Style;
  scrollAreaRef : option ScrollArea;
  visualViewport : option VisualViewport;
  textareaFocused : bool;
  isTouchingRef : bool
}.

#[global] Instance CssHeight_eq_dec : EqDecision CssHeight.
Proof. solve_decision. Defined.
#[global] Instance CssTransform_eq_dec : EqDecision CssTransform.
Proof. solve_decision. Defined.
#[global] Instance Style_eq_dec : EqDecision Style.
Proof. solve_decision. Defined.
#[global] Instance ScrollArea_eq_dec : EqDecision ScrollArea.
Proof. solve_decision. Defined.
#[global] Instance VisualViewport_eq_dec : EqDecision VisualViewport.
Proof. solve_decision. Defined.
#[global] Instance Dom_eq_dec : EqDecision Dom.
Proof. solve_decision. Defined.

Definition with_container (c : option Style) (d : Dom) : Dom :=
  mkDom c (scrollAreaRef d) (visualViewport d) (textareaFocused d)
        (isTouchingRef d).

Definition with_scrollArea (m : option ScrollArea) (d : Dom) : Dom :=
  mkDom (containerRef d) m (visualViewport d) (textareaFocused d)
        (isTouchingRef d).

Definition with_visualViewport (v : option VisualViewport) (d : Dom) : Dom :=
  mkDom (containerRef d) (scrollAreaRef d) v (textareaFocused d)
        (isTouchingRef d).

Definition with_focus (b : bool) (d : Dom) : Dom :=
  mkDom (containerRef d) (scrollAreaRef d) (visualViewport d) b
        (isTouchingRef d).

Definition with_touching (b : bool) (d : Dom) : Dom :=
  mkDom (containerRef d) (scrollAreaRef d) (visualViewport d)
        (textareaFocused d) b.

(** ** Viewport synchronisation *)

Section Viewport.
Local Open Scope Z_scope.

(** [scrollHeight - scrollTop - clientHeight < 100]. *)
Definition isAtBottom (m : ScrollArea) : bool :=
  scrollHeight m - scrollTop m - clientHeight m <? 100.

(** [el.scrollTop = el.scrollHeight]. *)
Definition jumpToBottom (m : ScrollArea) : ScrollArea :=
  mkScrollArea (scrollHeight m) (scrollHeight m) (clientHeight m).

(** [containerRef.current.style.height = `${vv.height}px`]. *)
Definition setHeight (h : Z) (d : Dom) : Dom :=
  with_container
    (option_map (fun c => mkStyle (Px h) (style_transform c))
                (containerRef d)) d.

(** [containerRef.current.style.transform =
     `translate3d(0, ${vv.offsetTop}px, 0)`]. *)
Definition setTransform (y : Z) (d : Dom) : Dom :=
  with_container
    (option_map (fun c => mkStyle (style_height c) (Translate3d y))
                (containerRef d)) d.

(** Step 3 of [handleResize]: the guarded scroll correction. *)
Definition scrollCorrection (d : Dom) : Dom :=
  if textareaFocused d && negb (isTouchingRef d) then
    match scrollAreaRef d with
    | Some m =>
        if isAtBottom m then with_scrollArea (Some (jumpToBottom m)) d
        else d
    | None => d
    end
  else d.

(** The statements of [handleResize] after its guard, in program
    order. *)
Definition handleResize_body (vv : VisualViewport) : list (Dom -> Dom) :=
  [ setHeight (height vv); setTransform (offsetTop vv); scrollCorrection ].

Definition exec (body : list (Dom -> Dom)) (d : Dom) : Dom :=
  foldl (fun d' f => f d') d body.

(** The states after each statement of a body, in order. *)
Fixpoint states (body : list (Dom -> Dom)) (d : Dom) : list Dom :=
  match body with
  | [] => []
  | f :: body' => f d :: states body' (f d)
  end.

Definition handleResize (d : Dom) : Dom :=
  match containerRef d, visualViewport d with
  | Some _, Some vv => exec (handleResize_body vv) d
  | _, _ => d
  end.

(** The scroll effect on [[messages, isStreaming]]. *)
Definition scrollEffect (d : Dom) : Dom :=
  with_scrollArea (option_map jumpToBottom (scrollAreaRef d)) d.

(** The callback that [handleFocus] schedules: it dispatches a
    synthetic [resize] event, which runs the listener at once, and
    then scrolls down. *)
Definition focusCallback (d : Dom) : Dom :=
  match visualViewport d with
  | Some _ => scrollEffect (handleResize d)
  | None => d
  end.

Definition handleTouchStart (d : Dom) : Dom := with_touching true d.
Definition handleTouchEnd (d : Dom) : Dom := with_touching false d.

(** [handleVisualViewportChange] of the sibling variant: the same two
    style writes on [viewportRef], then [window.scrollTo(0, 0)], which
    touches nothing modelled here. *)
Definition handleVisualViewportChange (d : Dom) : Dom :=
  match containerRef d, visualViewport d with
  | Some _, Some vv =>
      exec [ setHeight (height vv); setTransform (offsetTop vv) ] d
  | _, _ => d
  end.

End Viewport.

(** ** Messages and the mock response stream *)

Inductive Role := user | agent.

Record Message := mkMessage {
  id : JsString;
  role : Role;
  content : JsString
}.

(** The closure of the [setInterval] callback: the target id, the text
    being delivered and the counter [i]. *)
Record Stream := mkStream {
  agentMsgId : JsString;
  responseText : JsString;
  i : nat
}.

(** What a timer id stands for in the host's table. *)
Inductive Timer :=
| MockDelay                 (* setTimeout(..., 600) of sendMessage *)
| StreamTick (s : Stream)   (* setInterval(..., 30) of the mock response *)
| FocusDelay.               (* setTimeout(..., 300) of handleFocus *)

Record App := mkApp {
  messages : list Message;
  input : JsString;
  isStreaming : bool;
  timers : gmap nat Timer;
  page : Dom
}.

#[global] Instance Role_eq_dec : EqDecision Role.
Proof. solve_decision. Defined.
#[global] Instance Message_eq_dec : EqDecision Message.
Proof. solve_decision. Defined.
#[global] Instance Stream_eq_dec : EqDecision Stream.
Proof. solve_decision. Defined.
#[global] Instance Timer_eq_dec : EqDecision Timer.
Proof. solve_decision. Defined.

Definition with_messages (l : list Message) (a : App) : App :=
  mkApp l (input a) (isStreaming a) (timers a) (page a).

Definition with_input (s : JsString) (a : App) : App :=
  mkApp (messages a) s (isStreaming a) (timers a) (page a).

Definition with_isStreaming (b : bool) (a : App) : App :=
  mkApp (messages a) (input a) b (timers a) (page a).

Definition with_timers (t : gmap nat Timer) (a : App) : App :=
  mkApp (messages a) (input a) (isStreaming a) t (page a).

Definition with_page (d : Dom) (a : App) : App :=
  mkApp (messages a) (input a) (isStreaming a) (timers a) d.

(** [setTimeout] and [setInterval] register the closure under an id
    that is not in use; [clearInterval] forgets an id. *)
Definition setTimer (t : Timer) (a : App) : App :=
  with_timers (<[fresh (dom (timers a)) := t]> (timers a)) a.

Definition clearTimer (k : nat) (a : App) : App :=
  with_timers (delete k (timers a)) a.

(** The render that follows a change of [messages] or [isStreaming]
    runs the scroll effect. *)
Definition commit (a : App) : App := with_page (scrollEffect (page a)) a.

Definition RESPONSE_TEXT : JsString :=
  lit "Here is a smooth, non-janky response that streams in without breaking your layout. Notice how the keyboard interactions on mobile should feel much more native now.".

(** [handleInput]. *)
Definition handleInput (value : JsString) (a : App) : App :=
  with_input value a.

(** [handleFocus]: schedule the forced pass. *)
Definition handleFocus (a : App) : App := setTimer FocusDelay a.

(** [textareaRef.current.focus()]: a focus event fires only when the
    control was not the active element. *)
Definition focusTextarea (a : App) : App :=
  if textareaFocused (page a) then a
  else handleFocus (with_page (with_focus true (page a)) a).

(** [sendMessage], with [now] the value of [Date.now()]. *)
Definition sendMessage (now : Z) (a : App) : App :=
  if negb (truthy (trim (input a))) then a
  else
    let userText := input a in
    let userMsg := mkMessage (toString now) user userText in
    let a1 := with_messages (messages a ++ [userMsg]) a in
    let a2 := with_input [] a1 in
    let a3 := with_isStreaming true a2 in
    let a4 := focusTextarea a3 in
    commit (setTimer MockDelay a4).

(** The [disabled] attribute of the send button. *)
Definition sendDisabled (a : App) : bool :=
  negb (truthy (trim (input a))) && negb (isStreaming a).

(** The callback of the mock delay, with [now] the value of
    [Date.now()]. *)
Definition mockResponse (now : Z) (a : App) : App :=
  let agentMsgId := toString (now + 1) in
  let a1 :=
    with_messages (messages a ++ [mkMessage agentMsgId agent []]) a in
  commit (setTimer (StreamTick (mkStream agentMsgId RESPONSE_TEXT 0)) a1).

(** The function that the updater of a tick maps over the store; it
    reads [i] from the closure [s] at the time it runs. *)
Definition appendChar (s : Stream) (msg : Message) : Message :=
  if bool_decide (id msg = agentMsgId s)
  then mkMessage (id msg) (role msg)
                 (content msg ++ charAt (responseText s) (i s))
  else msg.

(** One run of the interval callback registered under [k], with the
    render that follows it.  The callback queues the updater, then
    increments [i]; the updater runs at the render, on the closure as
    the increment left it. *)
Definition tick (k : nat) (s : Stream) (a : App) : App :=
  let i' := S (i s) in
  let s' := mkStream (agentMsgId s) (responseText s) i' in
  let a1 := with_messages (appendChar s' <$> messages a) a in
  if length (responseText s) <=? i'
  then commit (with_isStreaming false (clearTimer k a1))
  else commit (with_timers (<[k := StreamTick s']> (timers a1)) a1).

(** ** The event loop *)

Inductive Event :=
| Change (value : JsString)       (* onChange of the textarea *)
| Click (now : Z)                 (* click on the send button *)
| Enter (now : Z)                 (* Enter without Shift in the textarea *)
| Timeout (k : nat) (now : Z)     (* the host runs the timeout [k] *)
| Tick (k : nat)                  (* the host runs the interval [k] *)
| Geometry (vv : VisualViewport)  (* visualViewport resize or scroll *)
| TouchStart
| TouchEnd
| Focus                           (* the textarea becomes active *)
| Blur                            (* the textarea stops being active *)
| Layout (sh ch : Z)              (* relayout of the message list *)
| Scroll (st : Z).                (* the list is scrolled to [st] *)

#[global] Instance Event_eq_dec : EqDecision Event.
Proof. solve_decision. Defined.

Definition dispatch (e : Event) (a : App) : App :=
  match e with
  | Change value => handleInput value a
  | Click now => if sendDisabled a then a else sendMessage now a
  | Enter now => sendMessage now a
  | Timeout k now =>
      match timers a !! k with
      | Some MockDelay => mockResponse now (clearTimer k a)
      | Some FocusDelay =>
          let a1 := clearTimer k a in
          with_page (focusCallback (page a1)) a1
      | _ => a
      end
  | Tick k =>
      match timers a !! k with
      | Some (StreamTick s) => tick k s a
      | _ => a
      end
  | Geometry vv =>
      match visualViewport (page a) with
      | Some _ =>
          with_page (handleResize (with_visualViewport (Some vv) (page a))) a
      | None => a
      end
  | TouchStart => with_page (handleTouchStart (page a)) a
  | TouchEnd => with_page (handleTouchEnd (page a)) a
  | Focus =>
      if textareaFocused (page a) then a
      else handleFocus (with_page (with_focus true (page a)) a)
  | Blur => with_page (with_focus false (page a)) a
  | Layout sh ch =>
      with_page
        (with_scrollArea
           (option_map (fun m => mkScrollArea (scrollTop m) sh ch)
                       (scrollAreaRef (page a))) (page a)) a
  | Scroll st =>
      with_page
        (with_scrollArea
           (option_map
              (fun m => mkScrollArea st (scrollHeight m) (clientHeight m))
              (scrollAreaRef (page a))) (page a)) a
  end.

Definition run (evs : list Event) (a : App) : App :=
  foldl (fun a' e => dispatch e a') a evs.

(** The component after its first render: the layout effect syncs the
    panel when the platform reports a visual viewport, then the scroll
    effect runs. *)
Definition mount (vv : option VisualViewport) (m : ScrollArea) : App :=
  mkApp [] [] false ∅
        (scrollEffect
           (handleResize
              (mkDom (Some (mkStyle Full NoTransform)) (Some m) vv
                     false false))).

(** ** Properties stated of the model *)

(** The pin tolerance and the distance it is compared with. *)
Definition PIN_THRESHOLD : Z := 100.

Definition distanceFromBottom (m : ScrollArea) : Z :=
  (scrollHeight m - scrollTop m - clientHeight m)%Z.

(** The style that shows a geometry reading. *)
Definition applied (vv : VisualViewport) : Style :=
  mkStyle (Px (height vv)) (Translate3d (offsetTop vv)).

(** The geometry of the last [Geometry] event of a run, or the one read
    at mount when there was none. *)
Definition lastGeometry (vv0 : VisualViewport) (evs : list Event)
  : VisualViewport :=
  foldl (fun vv e => match e with Geometry vv' => vv' | _ => vv end) vv0 evs.



(** Timers of the mock response: its delay and its interval. *)
Definition isStreamTimer (t : Timer) : bool :=
  match t with
  | MockDelay | StreamTick _ => true
  | FocusDelay => false
  end.

(** The interval delivers into messages with id [target]. *)
Definition aims (target : JsString) (t : Timer) : bool :=
  match t with
  | StreamTick s => bool_decide (agentMsgId s = target)
  | _ => false
  end.

(** The ids of the registered intervals that deliver into [target]. *)
Definition streamsAt (target : JsString) (a : App) : list nat :=
  (filter (fun kt => aims target kt.2 = true) (map_to_list (timers a))).*1.

(** The timer is an interval of the mock response. *)
Definition isInterval (t : Timer) : bool :=
  match t with
  | StreamTick _ => true
  | _ => false
  end.

(** The ids of all registered intervals. *)
Definition activeStreams (a : App) : list nat :=
  (filter (fun kt => isInterval kt.2 = true) (map_to_list (timers a))).*1.

(** The event runs a mock-delay callback that would name its agent
    message [target]. *)
Definition mints (target : JsString) (e : Event) : bool :=
  match e with
  | Timeout _ now => bool_decide (toString (now + 1) = target)
  | _ => false
  end.

(** What a stream of [text] has appended to an empty message when its
    counter stands at [j]: the units at the indices 1 to [j]. *)
Definition delivered (text : JsString) (j : nat) : JsString :=
  drop 1 (take (S j) text).

(** The state of one stream, seen from the store: while its interval
    [k] is registered with counter [j] the message at [p] holds
    [delivered text j]; [completed] says that no interval aims at
    [target] any more and that the message holds [c]. *)
Definition delivering (k p : nat) (target text : JsString) (a : App) : Prop :=
  ∃ s m, timers a !! k = Some (StreamTick s)
         ∧ agentMsgId s = target ∧ responseText s = text
         ∧ messages a !! p = Some m ∧ id m = target
         ∧ content m = delivered text (i s)
         ∧ ∀ k' t, timers a !! k' = Some t → aims target t = true → k' = k.

Definition completed (p : nat) (target c : JsString) (a : App) : Prop :=
  ∃ m, messages a !! p = Some m ∧ id m = target ∧ content m = c
       ∧ ∀ k' t, timers a !! k' = Some t → aims target t = false.

(** A step from [a] to [a'] that leaves a stream into [target] alone:
    the messages carrying the id are the same, and so are the intervals
    that aim at it. *)
Definition undisturbed (target : JsString) (a a' : App) : Prop :=
  (∀ p m, messages a !! p = Some m → id m = target →
          messages a' !! p = Some m)
  ∧ (∀ k t, aims target t = true →
            (timers a !! k = Some t ↔ timers a' !! k = Some t)).

(** The number of ticks a stream at counter [j] still needs. *)
Definition ticksLeft (text : JsString) (j : nat) : nat :=
  Nat.max 1 (length text - j).

(** A submit that finds a response pending. *)
Definition overlapping (e : Event) (a : App) : bool :=
  match e with
  | Click _ | Enter _ => isStreaming a && truthy (trim (input a))
  | _ => false
  end.

(** Runs in which no submit overlaps a pending response. *)
Fixpoint paced (evs : list Event) (a : App) : bool :=
  match evs with
  | [] => true
  | e :: evs' => negb (overlapping e a) && paced evs' (dispatch e a)
  end.


(** The last message is an agent message holding what a stream that
    has ended leaves: the response without its first unit. *)
Definition answered (a : App) : Prop :=
  ∃ m, last (messages a) = Some m ∧ role m = agent
       ∧ content m = drop 1 RESPONSE_TEXT.

(** What a paced run maintains: the store and the timer table agree on
    where the single response stands. *)
Definition idle (a : App) : Prop :=
  isStreaming a = false
  ∧ (∀ k t, timers a !! k = Some t → isStreamTimer t = false)
  ∧ (messages a = [] ∨ answered a).

Definition waiting (a : App) : Prop :=
  isStreaming a = true
  ∧ (∃ k, timers a !! k = Some MockDelay
          ∧ ∀ k' t, timers a !! k' = Some t → isStreamTimer t = true → k' = k)
  ∧ (∃ m, last (messages a) = Some m ∧ role m = user).

Definition streaming (a : App) : Prop :=
  isStreaming a = true
  ∧ ∃ k s m,
      timers a !! k = Some (StreamTick s)
      ∧ (∀ k' t, timers a !! k' = Some t → isStreamTimer t = true → k' = k)
      ∧ responseText s = RESPONSE_TEXT
      ∧ i s < length RESPONSE_TEXT
      ∧ last (messages a) = Some m
      ∧ id m = agentMsgId s ∧ role m = agent
      ∧ content m = delivered RESPONSE_TEXT (i s).

Definition paced_inv (a : App) : Prop := idle a ∨ waiting a ∨ streaming a.

(** A step that touches neither the store, nor the flag, nor the timers
    of the mock response. *)
Definition same_response (a a' : App) : Prop :=
  messages a' = messages a
  ∧ isStreaming a' = isStreaming a
  ∧ ∀ k t, isStreamTimer t = true →
           (timers a !! k = Some t ↔ timers a' !! k = Some t).

(** ** Sample runs *)

Definition sample_mount : App :=
  mount (Some (mkVisualViewport 800 0)) (mkScrollArea 0 1000 500).

(** A response is streaming, the list was scrolled back to 300 and a
    finger is on the screen. *)
Definition sample_touching : App :=
  run [Focus; Change (lit "hi"); Enter 1000; Timeout 1 1600;
       Layout 2000 500; Scroll 300; TouchStart] sample_mount.

(** The list is 50 units from its bottom, no finger is on the screen
    and the textarea is not the active element. *)
Definition sample_blurred : App :=
  run [Layout 1000 500; Scroll 450] sample_mount.

(** The mock delay of the first submission has just run: its interval
    is registered under 1 and its agent message is at position 1. *)
Definition sample_streaming : App :=
  run [Focus; Change (lit "hi"); Enter 1000; Timeout 1 1600] sample_mount.

(** Two ticks later the user has typed a further message. *)
Definition sample_overlap : App :=
  run [Tick 1; Tick 1; Change (lit "more")] sample_streaming.


(** The same layout on a platform without [window.visualViewport],
    after the textarea was focused. *)
Definition sample_degraded : App :=
  run [Focus; Layout 1000 500; Scroll 450]
      (mount None (mkScrollArea 0 1000 500)).

(** The list is 50 units from its bottom with the textarea active. *)
Definition sample_pinned : App :=
  run [Focus; Layout 1000 500; Scroll 450] sample_mount.

(** The list is 50 units from the bottom of a longer content, the
    textarea is not the active element. *)
Definition sample_reading : App :=
  run [Layout 1400 500; Scroll 850] sample_mount.

(** ** The keyboard and the composer *)

Record KeyboardEvent := mkKeyboardEvent {
  key : JsString;
  shiftKey : bool
}.

(** [handleKeyDown]; the boolean tells whether [e.preventDefault()] was
    called. *)
Definition handleKeyDown (e : KeyboardEvent) (now : Z) (a : App)
  : bool * App :=
  if bool_decide (key e = lit "Enter") && negb (shiftKey e)
  then (true, sendMessage now a)
  else (false, a).

(** [style.height] of the textarea: ['auto'] or a pixel length. *)
Inductive CssSize :=
| Auto
| Pixels (h : Z).

#[global] Instance CssSize_eq_dec : EqDecision CssSize.
Proof. solve_decision. Defined.

(** [adjustTextareaHeight] on the mounted textarea: the height is set
    to ['auto'], and then to the smaller of 150 and [natural], the
    [scrollHeight] that the textarea reports once its height is
    ['auto']. *)
Definition adjustTextareaHeight (natural : Z) (h : CssSize) : CssSize :=
  Pixels (Z.min natural 150).

(** The component with the style of its textarea. *)
Record Composer := mkComposer {
  app : App;
  textareaHeight : CssSize
}.

(** What [sendMessage] does to the textarea: past its guard it sets the
    height to ['auto']. *)
Definition resetTextarea (a : App) (h : CssSize) : CssSize :=
  if negb (truthy (trim (input a))) then h else Auto.

(** The callbacks of the composer; [Host] carries the callbacks of the
    event loop that come from no key, click or change. *)
Inductive Input :=
| Typed (value : JsString) (natural : Z)   (* onChange of the textarea *)
| KeyDown (e : KeyboardEvent) (now : Z)    (* onKeyDown of the textarea *)
| Pressed (now : Z)                        (* onClick of the send button *)
| Host (e : Event).

Definition handle (x : Input) (c : Composer) : Composer :=
  match x with
  | Typed value natural =>
      mkComposer (handleInput value (app c))
                 (adjustTextareaHeight natural (textareaHeight c))
  | KeyDown e now =>
      mkComposer (handleKeyDown e now (app c)).2
                 (if (handleKeyDown e now (app c)).1
                  then resetTextarea (app c) (textareaHeight c)
                  else textareaHeight c)
  | Pressed now =>
      if sendDisabled (app c) then c
      else mkComposer (sendMessage now (app c))
                      (resetTextarea (app c) (textareaHeight c))
  | Host e =>
      match e with
      | Change _ | Click _ | Enter _ => c
      | _ => mkComposer (dispatch e (app c)) (textareaHeight c)
      end
  end.

Definition compose (xs : list Input) (c : Composer) : Composer :=
  foldl (fun c' x => handle x c') c xs.

(** The composer after the first render: the JSX gives the textarea the
    height ['auto']. *)
Definition composer0 (vv : option VisualViewport) (m : ScrollArea)
  : Composer :=
  mkComposer (mount vv m) Auto.

(** ** Further properties stated of the model *)

(** The heights the handlers give the textarea. *)
Definition capped (h : CssSize) : Prop :=
  match h with
  | Auto => True
  | Pixels h => (h ≤ 150)%Z
  end.

(** Whether a finger is on the screen after a run that began with the
    flag at [b]. *)
Definition lastTouch (b : bool) (evs : list Event) : bool :=
  foldl (fun b' e =>
           match e with
           | TouchStart => true
           | TouchEnd => false
           | _ => b'
           end) b evs.

(** The runs of the interval [k] in a run of callbacks. *)
Definition ticksOf (k : nat) (evs : list Event) : nat :=
  length (filter (fun e => e = Tick k) evs).

(** Roles that take turns, [expected] speaking first. *)
Definition other (r : Role) : Role :=
  match r with
  | user => agent
  | agent => user
  end.

Fixpoint inTurn (expected : Role) (rs : list Role) : bool :=
  match rs with
  | [] => true
  | r :: rs' => bool_decide (r = expected) && inTurn (other expected) rs'
  end.

(** The number whose decimal rendering a callback gives to the message
    it appends, if it appends one. *)
Definition minted (e : Event) (a : App) : option Z :=
  match e with
  | Click now | Enter now =>
      if truthy (trim (input a)) then Some now else None
  | Timeout k now =>
      match timers a !! k with
      | Some MockDelay => Some (now + 1)%Z
      | _ => None
      end
  | _ => None
  end.

(** Runs in which every number minted is greater than [bound] and than
    the numbers minted before it. *)
Fixpoint ascending (bound : Z) (evs : list Event) (a : App) : bool :=
  match evs with
  | [] => true
  | e :: evs' =>
      match minted e a with
      | Some n => (bound <? n)%Z && ascending n evs' (dispatch e a)
      | None => ascending bound evs' (dispatch e a)
      end
  end.

(** Every registered interval delivers the canned text and has not yet
    reached its end. *)
Definition intervals_in_range (a : App) : Prop :=
  ∀ k s, timers a !! k = Some (StreamTick s) →
         responseText s = RESPONSE_TEXT ∧ i s < length RESPONSE_TEXT.

(** The store of a paced run is a dialogue. *)
Definition dialogue_inv (a : App) : Prop :=
  paced_inv a ∧ inTurn user (role <$> messages a) = true.

(** ** The variant that positions the panel with [top]

    The first [ChatInterface] of [src/components/ChatInterface.tsx]:
    its handler is registered only where [window.visualViewport]
    exists, it writes [style.top], and it defers its scroll correction
    by a timeout of 50 ms.  The pending timeouts run the same closure,
    so their number stands for them. *)

Module Topped.

Record Panel := mkPanel {
  panel_height : CssHeight;
  panel_top : Z
}.

Record Page := mkPage {
  containerRef : option Panel;
  scrollAreaRef : option ScrollArea;
  visualViewport : VisualViewport;
  textareaFocused : bool;
  scrollTimers : nat
}.

Definition with_container (c : option Panel) (p : Page) : Page :=
  mkPage c (scrollAreaRef p) (visualViewport p) (textareaFocused p)
         (scrollTimers p).

Definition with_scrollArea (m : option ScrollArea) (p : Page) : Page :=
  mkPage (containerRef p) m (visualViewport p) (textareaFocused p)
         (scrollTimers p).

Definition with_scrollTimers (n : nat) (p : Page) : Page :=
  mkPage (containerRef p) (scrollAreaRef p) (visualViewport p)
         (textareaFocused p) n.

(** The callback of the timeout. *)
Definition scrollCallback (p : Page) : Page :=
  with_scrollArea (option_map jumpToBottom (scrollAreaRef p)) p.

(** The effect on [[messages, isStreaming]]. *)
Definition scrollEffect (p : Page) : Page :=
  with_scrollArea (option_map jumpToBottom (scrollAreaRef p)) p.

Definition handleResize (p : Page) : Page :=
  match containerRef p with
  | None => p
  | Some c =>
      let vv := visualViewport p in
      let p1 :=
        with_container (Some (mkPanel (Px (height vv)) (panel_top c))) p in
      let p2 :=
        with_container (Some (mkPanel (Px (height vv)) (offsetTop vv))) p1 in
      if textareaFocused p2 then with_scrollTimers (S (scrollTimers p2)) p2
      else p2
  end.

Inductive Event :=
| Geometry (vv : VisualViewport)  (* visualViewport resize or scroll *)
| Timeout                         (* the host runs a pending timeout *)
| Commit                          (* a render with a changed store or flag *)
| Focus
| Blur
| Layout (sh ch : Z)
| Scroll (st : Z).

Definition dispatch (e : Event) (p : Page) : Page :=
  match e with
  | Geometry vv =>
      handleResize
        (mkPage (containerRef p) (scrollAreaRef p) vv (textareaFocused p)
                (scrollTimers p))
  | Timeout =>
      match scrollTimers p with
      | O => p
      | S n => scrollCallback (with_scrollTimers n p)
      end
  | Commit => scrollEffect p
  | Focus =>
      mkPage (containerRef p) (scrollAreaRef p) (visualViewport p) true
             (scrollTimers p)
  | Blur =>
      mkPage (containerRef p) (scrollAreaRef p) (visualViewport p) false
             (scrollTimers p)
  | Layout sh ch =>
      with_scrollArea
        (option_map (fun m => mkScrollArea (scrollTop m) sh ch)
                    (scrollAreaRef p)) p
  | Scroll st =>
      with_scrollArea
        (option_map
           (fun m => mkScrollArea st (scrollHeight m) (clientHeight m))
           (scrollAreaRef p)) p
  end.

Definition run (evs : list Event) (p : Page) : Page :=
  foldl (fun p' e => dispatch e p') p evs.

(** After the first render: the initial sync, then the scroll effect. *)
Definition mount (vv : VisualViewport) (m : ScrollArea) : Page :=
  scrollEffect
    (handleResize (mkPage (Some (mkPanel Full 0)) (Some m) vv false 0)).

Definition lastGeometry (vv0 : VisualViewport) (evs : list Event)
  : VisualViewport :=
  foldl (fun vv e => match e with Geometry vv' => vv' | _ => vv end) vv0 evs.

(** The geometry events of a run that find the textarea active, and
    the timeouts of a run that find a callback pending. *)
Fixpoint scheduled (evs : list Event) (p : Page) : nat :=
  match evs with
  | [] => 0
  | e :: evs' =>
      (match e with
       | Geometry _ =>
           match containerRef p with
           | Some _ => if textareaFocused p then 1 else 0
           | None => 0
           end
       | _ => 0
       end) + scheduled evs' (dispatch e p)
  end.

Fixpoint fired (evs : list Event) (p : Page) : nat :=
  match evs with
  | [] => 0
  | e :: evs' =>
      (match e with
       | Timeout => match scrollTimers p with O => 0 | S _ => 1 end
       | _ => 0
       end) + fired evs' (dispatch e p)
  end.

End Topped.

(** ** The variant that keeps the height in React state

    [src/unnamed/part_000]: the handler stores the visible height in
    [viewportHeight] and returns the window to its origin; an effect on
    [viewportHeight] schedules, 100 ms ahead, a scroll to the bottom.
    The effect runs when the rendered value differs from the one of the
    render before. *)

Module Sized.

Record State := mkState {
  viewportHeight : CssHeight;
  scrollAreaRef : option ScrollArea;
  windowScroll : Z * Z;
  scrollTimers : nat
}.

(** The effect on [[viewportHeight]]. *)
Definition heightEffect (s : State) : State :=
  match scrollAreaRef s with
  | Some _ =>
      mkState (viewportHeight s) (scrollAreaRef s) (windowScroll s)
              (S (scrollTimers s))
  | None => s
  end.

(** [handleResize], with [h] the height read from the visual viewport,
    and the render it causes. *)
Definition handleResize (h : Z) (s : State) : State :=
  let s1 :=
    mkState (viewportHeight s) (scrollAreaRef s) (0, 0)%Z (scrollTimers s) in
  if decide (viewportHeight s = Px h) then s1
  else
    heightEffect
      (mkState (Px h) (scrollAreaRef s1) (windowScroll s1) (scrollTimers s1)).

(** The callback of the timeout. *)
Definition scrollCallback (s : State) : State :=
  mkState (viewportHeight s) (option_map jumpToBottom (scrollAreaRef s))
          (windowScroll s) (scrollTimers s).

(** The effect on [[messages, isStreaming]]. *)
Definition scrollEffect (s : State) : State :=
  mkState (viewportHeight s) (option_map jumpToBottom (scrollAreaRef s))
          (windowScroll s) (scrollTimers s).

Inductive Event :=
| Geometry (h : Z)      (* visualViewport resize or scroll, at height [h] *)
| Timeout               (* the host runs a pending timeout *)
| Commit                (* a render with a changed store or flag *)
| Pan (x y : Z)         (* the window is scrolled to [(x, y)] *)
| Layout (sh ch : Z)
| Scroll (st : Z).

Definition dispatch (e : Event) (s : State) : State :=
  match e with
  | Geometry h => handleResize h s
  | Timeout =>
      match scrollTimers s with
      | O => s
      | S n =>
          scrollCallback
            (mkState (viewportHeight s) (scrollAreaRef s) (windowScroll s) n)
      end
  | Commit => scrollEffect s
  | Pan x y =>
      mkState (viewportHeight s) (scrollAreaRef s) (x, y) (scrollTimers s)
  | Layout sh ch =>
      mkState (viewportHeight s)
              (option_map (fun m => mkScrollArea (scrollTop m) sh ch)
                          (scrollAreaRef s))
              (windowScroll s) (scrollTimers s)
  | Scroll st =>
      mkState (viewportHeight s)
              (option_map
                 (fun m => mkScrollArea st (scrollHeight m) (clientHeight m))
                 (scrollAreaRef s))
              (windowScroll s) (scrollTimers s)
  end.

Definition run (evs : list Event) (s : State) : State :=
  foldl (fun s' e => dispatch e s') s evs.

(** The heights that a run reports and that differ from the one
    rendered when they arrive. *)
Fixpoint changes (evs : list Event) (s : State) : nat :=
  match evs with
  | [] => 0
  | e :: evs' =>
      (match e with
       | Geometry h => if decide (viewportHeight s = Px h) then 0 else 1
       | _ => 0
       end) + changes evs' (dispatch e s)
  end.

(** The timeouts of a run that find a callback pending. *)
Fixpoint fired (evs : list Event) (s : State) : nat :=
  match evs with
  | [] => 0
  | e :: evs' =>
      (match e with
       | Timeout => match scrollTimers s with O => 0 | S _ => 1 end
       | _ => 0
       end) + fired evs' (dispatch e s)
  end.

Definition lastHeight (h0 : CssHeight) (evs : list Event) : CssHeight :=
  foldl (fun h e => match e with Geometry h' => Px h' | _ => h end) h0 evs.

End Sized.

(** * Viewport synchronisation and scroll anchoring *)

Section ViewportFacts.
Local Open Scope Z_scope.

Lemma handleResize_unfold d c vv :
  containerRef d = Some c → visualViewport d = Some vv →
  handleResize d
  = scrollCorrection (setTransform (offsetTop vv) (setHeight (height vv) d)).
Proof. intros Hc Hv. unfold handleResize. by rewrite Hc, Hv. Qed.

Lemma scrollCorrection_container d :
  containerRef (scrollCorrection d) = containerRef d.
Proof. unfold scrollCorrection. by repeat case_match. Qed.

Lemma scrollCorrection_env d :
  visualViewport (scrollCorrection d) = visualViewport d
  ∧ textareaFocused (scrollCorrection d) = textareaFocused d
  ∧ isTouchingRef (scrollCorrection d) = isTouchingRef d.
Proof. unfold scrollCorrection. by repeat case_match. Qed.

Lemma scrollCorrection_touching d :
  isTouchingRef d = true → scrollCorrection d = d.
Proof.
  intros Ht. unfold scrollCorrection.
  by rewrite Ht, andb_false_r.
Qed.

Lemma scrollCorrection_blurred d :
  textareaFocused d = false → scrollCorrection d = d.
Proof. intros Hf. unfold scrollCorrection. by rewrite Hf. Qed.

Lemma scrollCorrection_pinned d m :
  scrollAreaRef d = Some m → textareaFocused d = true →
  isTouchingRef d = false → distanceFromBottom m < PIN_THRESHOLD →
  scrollAreaRef (scrollCorrection d) = Some (jumpToBottom m).
Proof.
  intros Hm Hf Ht Hlt. unfold scrollCorrection, isAtBottom.
  rewrite Hf, Ht, Hm. simpl.
  unfold distanceFromBottom, PIN_THRESHOLD in Hlt.
  by destruct (Z.ltb_spec (scrollHeight m - scrollTop m - clientHeight m)
                          100); [|lia].
Qed.

(** The handler never changes what it only reads. *)
Lemma handleResize_env d :
  visualViewport (handleResize d) = visualViewport d
  ∧ textareaFocused (handleResize d) = textareaFocused d
  ∧ isTouchingRef (handleResize d) = isTouchingRef d.
Proof.
  unfold handleResize. repeat case_match; try done.
  unfold exec. simpl. by destruct (scrollCorrection_env
    (setTransform (offsetTop v) (setHeight (height v) d))) as (-> & -> & ->).
Qed.

Lemma handleResize_container d c vv :
  containerRef d = Some c → visualViewport d = Some vv →
  containerRef (handleResize d) = Some (applied vv).
Proof.
  intros Hc Hv. rewrite (handleResize_unfold d c vv Hc Hv).
  rewrite scrollCorrection_container. simpl. by rewrite Hc.
Qed.

Lemma handleResize_unmounted d :
  containerRef d = None → handleResize d = d.
Proof. intros Hc. unfold handleResize. by rewrite Hc. Qed.

Lemma handleResize_touching d :
  isTouchingRef d = true →
  scrollAreaRef (handleResize d) = scrollAreaRef d.
Proof.
  intros Ht. unfold handleResize. repeat case_match; try done.
  unfold exec. simpl. by rewrite scrollCorrection_touching.
Qed.

Lemma handleResize_blurred d :
  textareaFocused d = false →
  scrollAreaRef (handleResize d) = scrollAreaRef d.
Proof.
  intros Hf. unfold handleResize. repeat case_match; try done.
  unfold exec. simpl. by rewrite scrollCorrection_blurred.
Qed.

Lemma handleResize_pinned d c vv m :
  containerRef d = Some c → visualViewport d = Some vv →
  scrollAreaRef d = Some m → textareaFocused d = true →
  isTouchingRef d = false → distanceFromBottom m < PIN_THRESHOLD →
  scrollAreaRef (handleResize d) = Some (jumpToBottom m).
Proof.
  intros Hc Hv Hm Hf Ht Hlt. rewrite (handleResize_unfold d c vv Hc Hv).
  by apply scrollCorrection_pinned.
Qed.

(** Inside the handler the two style writes are separate statements:
    after the first one the height is the new one and the transform is
    still the previous one. *)
Lemma handleResize_between_writes d c vv :
  containerRef d = Some c →
  states (handleResize_body vv) d !! 0%nat
  = Some (with_container
            (Some (mkStyle (Px (height vv)) (style_transform c))) d).
Proof. intros Hc. simpl. unfold setHeight. by rewrite Hc. Qed.

Lemma handleVisualViewportChange_applies d c vv :
  containerRef d = Some c → visualViewport d = Some vv →
  handleVisualViewportChange d = with_container (Some (applied vv)) d.
Proof.
  intros Hc Hv. unfold handleVisualViewportChange. rewrite Hc, Hv.
  unfold exec, setTransform, setHeight. simpl. by rewrite Hc.
Qed.

Lemma scrollEffect_scrollArea d m :
  scrollAreaRef d = Some m →
  scrollAreaRef (scrollEffect d) = Some (jumpToBottom m).
Proof. intros Hm. unfold scrollEffect. simpl. by rewrite Hm. Qed.

(** The test of the handler is the pin test of the specification. *)
Lemma isAtBottom_pinned m :
  isAtBottom m = true ↔ distanceFromBottom m < PIN_THRESHOLD.
Proof.
  unfold isAtBottom, distanceFromBottom, PIN_THRESHOLD. apply Z.ltb_lt.
Qed.

Lemma jumpToBottom_pinned m :
  0 ≤ clientHeight m → isAtBottom (jumpToBottom m) = true.
Proof.
  intros Hc. unfold isAtBottom. simpl.
  apply Z.ltb_lt. lia.
Qed.

Lemma jumpToBottom_twice m : jumpToBottom (jumpToBottom m) = jumpToBottom m.
Proof. done. Qed.

(** Handling the same reading again changes nothing. *)
Lemma handleResize_idempotent d :
  (∀ m, scrollAreaRef d = Some m → 0 ≤ clientHeight m) →
  handleResize (handleResize d) = handleResize d.
Proof.
  intros Hch. destruct d as [[c|] sa [vv|] f t]; try done.
  unfold handleResize. simpl. unfold exec. simpl.
  unfold scrollCorrection. simpl.
  destruct f, t; simpl; try done.
  destruct sa as [m|]; simpl; [|done].
  destruct (isAtBottom m) eqn:Hb; simpl.
  - rewrite jumpToBottom_pinned by (apply Hch; done). done.
  - rewrite Hb. done.
Qed.

End ViewportFacts.

(** * The panel follows the visual viewport *)

Section PanelFacts.

(** What a callback does to the page when it is not a geometry event:
    the panel's style and the viewport reading stay as they are. *)
Lemma sendMessage_panel now a :
  containerRef (page (sendMessage now a)) = containerRef (page a)
  ∧ visualViewport (page (sendMessage now a)) = visualViewport (page a).
Proof.
  unfold sendMessage, focusTextarea, handleFocus, commit, setTimer.
  by repeat case_match.
Qed.

Lemma dispatch_panel e a vv :
  containerRef (page a) = Some (applied vv) →
  visualViewport (page a) = Some vv →
  containerRef (page (dispatch e a))
  = Some (applied (match e with Geometry v => v | _ => vv end))
  ∧ visualViewport (page (dispatch e a))
    = Some (match e with Geometry v => v | _ => vv end).
Proof.
  intros Hc Hv. destruct e; simpl.
  - done.
  - case_match; [done|].
    destruct (sendMessage_panel now a) as [-> ->]. done.
  - destruct (sendMessage_panel now a) as [-> ->]. done.
  - repeat case_match; try done.
    simpl. unfold focusCallback. rewrite Hv. simpl.
    destruct (handleResize_env (page a)) as (-> & _ & _).
    by rewrite (handleResize_container _ _ _ Hc Hv).
  - repeat case_match; try done.
    unfold tick, commit, clearTimer. by case_match.
  - rewrite Hv. simpl.
    destruct (handleResize_env (with_visualViewport (Some vv0) (page a)))
      as (-> & _ & _).
    split; [|done].
    by apply (handleResize_container _ (applied vv)).
  - done.
  - done.
  - unfold handleFocus, setTimer. by case_match.
  - done.
  - done.
  - done.
Qed.

Lemma run_panel evs : ∀ a vv,
  containerRef (page a) = Some (applied vv) →
  visualViewport (page a) = Some vv →
  containerRef (page (run evs a)) = Some (applied (lastGeometry vv evs))
  ∧ visualViewport (page (run evs a)) = Some (lastGeometry vv evs).
Proof.
  induction evs as [|e evs IH]; intros a vv Hc Hv; [done|].
  destruct (dispatch_panel e a vv Hc Hv) as [Hc' Hv'].
  exact (IH _ _ Hc' Hv').
Qed.

Lemma mount_panel vv0 m :
  containerRef (page (mount (Some vv0) m)) = Some (applied vv0)
  ∧ visualViewport (page (mount (Some vv0) m)) = Some vv0.
Proof. done. Qed.

(** C6.  After every geometry event is handled the panel's applied
    height is the event's visible height and its applied offset is the
    event's visible offset, and the pair is never seen half applied:
    in every run of callbacks from the first render, whatever else is
    interleaved, the panel's style after the run shows the height and
    the offset of one and the same reading, the last one.  The handler
    assigns [style.height] and then [style.transform] inside one
    callback; the points at which anything else runs are the callback
    boundaries, which are the states of [run].  The handler of the
    sibling variant applies the same pair to a mounted panel and
    changes nothing else. *)
Theorem panel_shows_last_geometry
    (vv0 : VisualViewport) (m : ScrollArea) (evs : list Event)
    (vv : VisualViewport) :
  containerRef (page (run (evs ++ [Geometry vv]) (mount (Some vv0) m)))
  = Some (mkStyle (Px (height vv)) (Translate3d (offsetTop vv)))
  ∧ containerRef (page (run evs (mount (Some vv0) m)))
    = Some (mkStyle (Px (height (lastGeometry vv0 evs)))
                    (Translate3d (offsetTop (lastGeometry vv0 evs))))
  ∧ (∀ (c : Style) (sa : option ScrollArea) (f t : bool),
       handleVisualViewportChange (mkDom (Some c) sa (Some vv) f t)
       = mkDom (Some (mkStyle (Px (height vv)) (Translate3d (offsetTop vv))))
               sa (Some vv) f t).
Proof.
  destruct (mount_panel vv0 m) as [Hc Hv]. split; [|split].
  - destruct (run_panel (evs ++ [Geometry vv]) _ _ Hc Hv) as [-> _].
    unfold lastGeometry. by rewrite foldl_app.
  - by destruct (run_panel evs _ _ Hc Hv) as [-> _].
  - done.
Qed.

End PanelFacts.

(** * Scroll anchoring *)

Section AnchorFacts.
Local Open Scope Z_scope.

Lemma dispatch_Geometry a vv v0 :
  visualViewport (page a) = Some v0 →
  dispatch (Geometry vv) a
  = with_page (handleResize (with_visualViewport (Some vv) (page a))) a.
Proof. intros Hv. simpl. by rewrite Hv. Qed.

(** C1 (as amended).  While the touch flag is set, the reconciliation
    that a geometry event triggers leaves the scroll container as it
    was: its scroll position, for any distance from the bottom. *)
Theorem resize_keeps_scroll_while_touching
    (a : App) (vv : VisualViewport) :
  isTouchingRef (page a) = true →
  scrollAreaRef (page (dispatch (Geometry vv) a)) = scrollAreaRef (page a).
Proof.
  intros Ht. simpl. case_match; [|done]. simpl.
  by rewrite handleResize_touching.
Qed.

Lemma resize_keeps_scroll_while_touching_witness :
  isTouchingRef (page sample_touching) = true
  ∧ scrollAreaRef
      (page (dispatch (Geometry (mkVisualViewport 500 120)) sample_touching))
    = scrollAreaRef (page sample_touching).
Proof.
  split; [vm_compute; reflexivity|].
  apply resize_keeps_scroll_while_touching. vm_compute; reflexivity.
Defined.

(** C1, as stated, fails on the reconciliations that message-store
    changes trigger: with a finger on the screen and the list scrolled
    back to 300, a stream tick and a submission each move the scroll
    position to the bottom. *)
Lemma message_change_scrolls_while_touching :
  isTouchingRef (page sample_touching) = true
  ∧ scrollAreaRef (page sample_touching)
    = Some (mkScrollArea 300 2000 500)
  ∧ scrollAreaRef (page (dispatch (Tick 1) sample_touching))
    = Some (mkScrollArea 2000 2000 500)
  ∧ scrollAreaRef
      (page (run [Change (lit "more"); Enter 1700] sample_touching))
    = Some (mkScrollArea 2000 2000 500).
Proof. vm_compute. done. Qed.

Lemma sendMessage_scrolls now a m :
  messages (sendMessage now a) ≠ messages a →
  scrollAreaRef (page a) = Some m →
  scrollAreaRef (page (sendMessage now a)) = Some (jumpToBottom m).
Proof.
  intros Hne Hm. unfold sendMessage in *.
  destruct (negb (truthy (trim (input a)))); [done|].
  unfold commit, focusTextarea, handleFocus, setTimer. simpl.
  destruct (textareaFocused (page a)); simpl; by rewrite Hm.
Qed.

(** Whatever callback changes the store, the render that follows runs
    the scroll effect, which reads neither the distance from the
    bottom, nor the touch flag, nor the focus. *)
Lemma store_change_scrolls_to_bottom e a m :
  messages (dispatch e a) ≠ messages a →
  scrollAreaRef (page a) = Some m →
  scrollAreaRef (page (dispatch e a)) = Some (jumpToBottom m).
Proof.
  intros Hne Hm. destruct e; simpl in *; try done.
  - destruct (sendDisabled a); [done|]. by apply sendMessage_scrolls.
  - by apply sendMessage_scrolls.
  - destruct (timers a !! k) as [[|s|]|]; try done.
    unfold mockResponse, commit, setTimer, clearTimer. simpl.
    by rewrite Hm.
  - destruct (timers a !! k) as [[|s|]|]; try done.
    unfold tick, commit, clearTimer.
    case_match; simpl; by rewrite Hm.
  - by destruct (visualViewport (page a)).
  - by destruct (textareaFocused (page a)).
Qed.

(** C2 (as amended).  A geometry event that finds the list less than
    100 units from its bottom, no finger on the screen and the
    textarea active sets the scroll position to the content extent
    exactly, and so does, whatever it finds, the reconciliation that
    follows a change of the message store; the forced pass scheduled on
    focus does so whatever the distance, the touch flag and the focus
    are, provided the platform reports a visual viewport. *)
Theorem scroll_jumps_to_bottom :
  (∀ (a : App) (vv : VisualViewport) (c : Style) (m : ScrollArea),
     containerRef (page a) = Some c →
     visualViewport (page a) ≠ None →
     scrollAreaRef (page a) = Some m →
     textareaFocused (page a) = true →
     isTouchingRef (page a) = false →
     distanceFromBottom m < PIN_THRESHOLD →
     scrollAreaRef (page (dispatch (Geometry vv) a))
     = Some (mkScrollArea (scrollHeight m) (scrollHeight m)
                          (clientHeight m)))
  ∧ (∀ (a : App) (k : nat) (now : Z) (m : ScrollArea),
       timers a !! k = Some FocusDelay →
       visualViewport (page a) ≠ None →
       scrollAreaRef (page a) = Some m →
       scrollAreaRef (page (dispatch (Timeout k now) a))
       = Some (mkScrollArea (scrollHeight m) (scrollHeight m)
                            (clientHeight m)))
  ∧ (∀ (a : App) (e : Event) (m : ScrollArea),
       messages (dispatch e a) ≠ messages a →
       scrollAreaRef (page a) = Some m →
       scrollAreaRef (page (dispatch e a))
       = Some (mkScrollArea (scrollHeight m) (scrollHeight m)
                            (clientHeight m))).
Proof.
  split; [|split].
  - intros a vv c m Hc Hv Hm Hf Ht Hlt.
    destruct (visualViewport (page a)) as [v0|] eqn:Hv0; [|done].
    rewrite (dispatch_Geometry a vv v0 Hv0). simpl.
    by apply (handleResize_pinned _ c vv m).
  - intros a k now m Hk Hv Hm. simpl. rewrite Hk. simpl.
    destruct (page a) as [c sa [v0|] f t]; simpl in *; [|done].
    subst sa. unfold focusCallback, handleResize, exec. simpl.
    destruct c as [c|]; [|done]. simpl.
    unfold scrollCorrection. simpl. by repeat case_match.
  - intros a e m Hne Hm. by apply store_change_scrolls_to_bottom.
Qed.

Lemma scroll_jumps_to_bottom_witness :
  scrollAreaRef (page sample_pinned) = Some (mkScrollArea 450 1000 500)
  ∧ scrollAreaRef
      (page (dispatch (Geometry (mkVisualViewport 500 0)) sample_pinned))
    = Some (mkScrollArea 1000 1000 500)
  ∧ scrollAreaRef (page (dispatch (Timeout 0 0) sample_touching))
    = Some (mkScrollArea 2000 2000 500)
  ∧ scrollAreaRef (page (dispatch (Tick 1) sample_touching))
    = Some (mkScrollArea 2000 2000 500).
Proof.
  destruct scroll_jumps_to_bottom as (Hresize & Hforced & Hstore).
  split; [vm_compute; reflexivity|]. split; [|split].
  - apply (Hresize sample_pinned
             (mkVisualViewport 500 0) (mkStyle (Px 800) (Translate3d 0))
             (mkScrollArea 450 1000 500));
      vm_compute; congruence.
  - apply (Hforced sample_touching 0%nat 0 (mkScrollArea 300 2000 500));
      vm_compute; congruence.
  - apply (Hstore sample_touching (Tick 1) (mkScrollArea 300 2000 500)).
    + intros Heq. apply (f_equal (fun l => content <$> l !! 1%nat)) in Heq.
      vm_compute in Heq. discriminate Heq.
    + vm_compute. reflexivity.
Defined.

(** C2, as stated, fails: a geometry event that finds the list 50
    units from its bottom and no finger on the screen leaves the
    scroll position at 450 when the textarea is not the active
    element; and on a platform without a visual viewport the forced
    pass leaves it too. *)
Lemma resize_without_focus_keeps_scroll :
  (∃ m, scrollAreaRef (page sample_blurred) = Some m
        ∧ distanceFromBottom m = 50)
  ∧ isTouchingRef (page sample_blurred) = false
  ∧ scrollAreaRef
      (page (dispatch (Geometry (mkVisualViewport 500 0)) sample_blurred))
    = Some (mkScrollArea 450 1000 500)
  ∧ timers sample_degraded !! 0%nat = Some FocusDelay
  ∧ scrollAreaRef (page (dispatch (Timeout 0 0) sample_degraded))
    = Some (mkScrollArea 450 1000 500).
Proof.
  split; [eexists; split; vm_compute; reflexivity|].
  vm_compute. done.
Qed.

(** C7 (as amended).  Handling the same geometry event twice in
    succession is idempotent in every state whose view extent is not
    negative: the second handling changes nothing at all, so the
    panel height, the panel offset and the scroll position stay.  The
    first handling sets the height and the offset of the event; it
    makes the scroll position jump to the bottom when the list was
    less than 100 units from it, no finger was on the screen and the
    textarea was the active element. *)
Theorem geometry_event_idempotent (a : App) (vv : VisualViewport) :
  (∀ m, scrollAreaRef (page a) = Some m → 0 ≤ clientHeight m) →
  dispatch (Geometry vv) (dispatch (Geometry vv) a)
  = dispatch (Geometry vv) a
  ∧ (∀ (c : Style) (m : ScrollArea),
       containerRef (page a) = Some c →
       visualViewport (page a) ≠ None →
       scrollAreaRef (page a) = Some m →
       textareaFocused (page a) = true →
       isTouchingRef (page a) = false →
       distanceFromBottom m < PIN_THRESHOLD →
       containerRef (page (dispatch (Geometry vv) a))
       = Some (mkStyle (Px (height vv)) (Translate3d (offsetTop vv)))
       ∧ scrollAreaRef (page (dispatch (Geometry vv) a))
         = Some (mkScrollArea (scrollHeight m) (scrollHeight m)
                              (clientHeight m))).
Proof.
  intros Hch. split.
  - destruct (visualViewport (page a)) as [v0|] eqn:Hv0;
      [|simpl; rewrite Hv0; simpl; by rewrite Hv0].
    rewrite (dispatch_Geometry a vv v0 Hv0).
    set (d := with_visualViewport (Some vv) (page a)).
    assert (Hv : visualViewport (handleResize d) = Some vv)
      by (by destruct (handleResize_env d) as (-> & _ & _)).
    rewrite (dispatch_Geometry _ vv vv) by done. simpl.
    assert (Hd : with_visualViewport (Some vv) (handleResize d)
                 = handleResize d).
    { destruct (handleResize d) as [c' sa' v' f' t'].
      simpl in Hv. by rewrite Hv. }
    rewrite Hd, handleResize_idempotent; [done|].
    intros m Hm. by apply Hch.
  - intros c m Hc Hv Hm Hf Ht Hlt.
    destruct (visualViewport (page a)) as [v0|] eqn:Hv0; [|done].
    rewrite (dispatch_Geometry a vv v0 Hv0). simpl. split.
    + by apply (handleResize_container _ c vv).
    + by apply (handleResize_pinned _ c vv m).
Qed.

Lemma geometry_event_idempotent_witness :
  dispatch (Geometry (mkVisualViewport 500 0))
           (dispatch (Geometry (mkVisualViewport 500 0)) sample_pinned)
  = dispatch (Geometry (mkVisualViewport 500 0)) sample_pinned
  ∧ scrollAreaRef
      (page (dispatch (Geometry (mkVisualViewport 500 0)) sample_pinned))
    = Some (mkScrollArea 1000 1000 500).
Proof.
  assert (Hch : ∀ m, scrollAreaRef (page sample_pinned) = Some m
                     → 0 ≤ clientHeight m).
  { intros m Hm. vm_compute in Hm. injection Hm as <-. vm_compute.
    congruence. }
  destruct (geometry_event_idempotent sample_pinned
              (mkVisualViewport 500 0) Hch) as [Hidem Hjump].
  split; [exact Hidem|].
  apply (Hjump (mkStyle (Px 800) (Translate3d 0))
               (mkScrollArea 450 1000 500));
    vm_compute; congruence.
Defined.

(** C7, as stated, fails on the jump: in a state where the list is 50
    units from its bottom and no finger is on the screen, an event
    that reports the visible height reduced by 300 sets the new
    height and leaves the scroll position at 850, short of the
    content extent 1400, because the textarea is not the active
    element. *)
Lemma reduced_height_without_focus_keeps_scroll :
  (∃ m, scrollAreaRef (page sample_reading) = Some m
        ∧ isAtBottom m = true)
  ∧ isTouchingRef (page sample_reading) = false
  ∧ visualViewport (page sample_reading) = Some (mkVisualViewport 800 0)
  ∧ containerRef
      (page (dispatch (Geometry (mkVisualViewport 500 0)) sample_reading))
    = Some (mkStyle (Px 500) (Translate3d 0))
  ∧ scrollAreaRef
      (page (dispatch (Geometry (mkVisualViewport 500 0)) sample_reading))
    = Some (mkScrollArea 850 1400 500).
Proof.
  split; [eexists; split; vm_compute; reflexivity|].
  vm_compute. done.
Qed.

End AnchorFacts.

(** * Submission and the message store *)

Section SubmitFacts.

Lemma trimStart_blank (s : JsString) :
  Forall (fun c => isWhiteSpace c = true) s → trimStart s = [].
Proof.
  induction 1 as [|c s Hc _ IH]; [done|]. simpl. by rewrite Hc.
Qed.

Lemma trim_blank (s : JsString) :
  Forall (fun c => isWhiteSpace c = true) s → trim s = [].
Proof. intros Hs. unfold trim. by rewrite trimStart_blank. Qed.

Lemma sendMessage_blank now a :
  trim (input a) = [] → sendMessage now a = a.
Proof. intros Ht. unfold sendMessage. by rewrite Ht. Qed.

(** C9.  For an input that is empty or made of whitespace only, a
    submit, by the Enter key or by a click on the send button, returns
    the state it was given: the message list, the streaming flag, the
    input field, the timers of any active stream and the page are all
    unchanged. *)
Theorem blank_submit_is_noop (a : App) (now : Z) :
  Forall (fun c => isWhiteSpace c = true) (input a) →
  dispatch (Enter now) a = a ∧ dispatch (Click now) a = a.
Proof.
  intros Hs. pose proof (trim_blank _ Hs) as Ht. simpl.
  rewrite (sendMessage_blank now a Ht). split; [done|by case_match].
Qed.

Lemma blank_submit_is_noop_witness :
  let a := dispatch (Change [32; 9; 160; 12288]%N) sample_touching in
  isStreaming a = true
  ∧ dispatch (Enter 1700) a = a ∧ dispatch (Click 1700) a = a.
Proof.
  intros a. split; [vm_compute; reflexivity|].
  apply blank_submit_is_noop. subst a. simpl.
  repeat (constructor; [reflexivity|]). constructor.
Defined.

End SubmitFacts.

Section StoreFacts.



Lemma appendChar_id s m : id (appendChar s m) = id m.
Proof. unfold appendChar. by case_bool_decide. Qed.

Lemma appendChar_role s m : role (appendChar s m) = role m.
Proof. unfold appendChar. by case_bool_decide. Qed.


Lemma appendChar_other s m : id m ≠ agentMsgId s → appendChar s m = m.
Proof. intros Hne. unfold appendChar. by case_bool_decide. Qed.

Lemma appendChar_target s m :
  id m = agentMsgId s →
  appendChar s m
  = mkMessage (id m) (role m) (content m ++ charAt (responseText s) (i s)).
Proof. intros He. unfold appendChar. by case_bool_decide. Qed.


(** What a callback can do to the store. *)
Lemma sendMessage_messages now a :
  messages (sendMessage now a) = messages a
  ∨ messages (sendMessage now a)
    = messages a ++ [mkMessage (toString now) user (input a)].
Proof.
  unfold sendMessage. case_match; [by left|right].
  unfold commit, setTimer, focusTextarea, handleFocus, setTimer.
  by case_match.
Qed.







End StoreFacts.

(** * The mock response stream *)

Section TimerFacts.

Lemma setTimer_lookup t a k t' :
  timers (setTimer t a) !! k = Some t'
  ↔ (k = fresh (dom (timers a)) ∧ t' = t) ∨ timers a !! k = Some t'.
Proof.
  unfold setTimer. simpl. rewrite lookup_insert_Some.
  pose proof (is_fresh (dom (timers a))) as Hfresh.
  split.
  - intros [[<- <-]|[_ Hk]]; [by left|by right].
  - intros [[-> ->]|Hk]; [by left|right]. split; [|done].
    intros <-. apply Hfresh. apply elem_of_dom. by eexists.
Qed.

Lemma setTimer_fresh (a : App) :
  timers a !! fresh (dom (timers a)) = None.
Proof. apply not_elem_of_dom, is_fresh. Qed.

Lemma clearTimer_lookup k0 a k t :
  timers (clearTimer k0 a) !! k = Some t
  ↔ k ≠ k0 ∧ timers a !! k = Some t.
Proof.
  unfold clearTimer. simpl. rewrite lookup_delete_Some.
  split; intros [H1 H2]; split; congruence.
Qed.

Lemma focusTextarea_timers a k t :
  isInterval t = true →
  (timers a !! k = Some t ↔ timers (focusTextarea a) !! k = Some t).
Proof.
  intros Ht. unfold focusTextarea, handleFocus. case_match; [done|].
  rewrite setTimer_lookup. cbn [timers with_page].
  split; [by right|]. intros [[_ ->]|Hk]; done.
Qed.

Lemma sendMessage_timers now a k t :
  isInterval t = true →
  (timers a !! k = Some t ↔ timers (sendMessage now a) !! k = Some t).
Proof.
  intros Ht. unfold sendMessage. case_match; [done|].
  cbv zeta. unfold commit. cbn [timers with_page].
  rewrite setTimer_lookup, <- focusTextarea_timers by done.
  cbn [timers with_isStreaming with_input with_messages].
  split; [by right|]. intros [[_ ->]|Hk]; done.
Qed.

Lemma aims_isInterval target t : aims target t = true → isInterval t = true.
Proof. by destruct t. Qed.

End TimerFacts.

Section StreamFacts.
Context (target : JsString).

Lemma take_charAt (text : JsString) (j : nat) :
  take j text ++ charAt text j = take (S j) text.
Proof.
  unfold charAt. destruct (text !! j) as [c|] eqn:Hj.
  - by rewrite (take_S_r _ _ _ Hj).
  - apply lookup_ge_None in Hj.
    rewrite !take_ge by lia. by rewrite app_nil_r.
Qed.

Lemma delivered_charAt (text : JsString) (j : nat) :
  delivered text j ++ charAt text (S j) = delivered text (S j).
Proof.
  unfold delivered. rewrite <- (take_charAt text (S j)).
  destruct text as [|c text]; [done|]. by rewrite firstn_cons.
Qed.

Lemma delivered_ge (text : JsString) (j : nat) :
  length text ≤ S j → delivered text j = drop 1 text.
Proof. intros Hj. unfold delivered. by rewrite take_ge. Qed.

Lemma undisturbed_refl a : undisturbed target a a.
Proof. split; [done|]. done. Qed.

Lemma undisturbed_page a d : undisturbed target a (with_page d a).
Proof. split; [done|]. done. Qed.

Lemma undisturbed_sendMessage now a :
  undisturbed target a (sendMessage now a).
Proof.
  split.
  - intros p m Hp _.
    destruct (sendMessage_messages now a) as [->| ->]; [done|].
    by apply lookup_app_l_Some.
  - intros k t Ht. apply sendMessage_timers. by eapply aims_isInterval.
Qed.

Lemma undisturbed_mockResponse now k0 a :
  timers a !! k0 = Some MockDelay →
  toString (now + 1) ≠ target →
  undisturbed target a (mockResponse now (clearTimer k0 a)).
Proof.
  intros Hk0 Hne. split.
  - intros p m Hp _. simpl. by apply lookup_app_l_Some.
  - intros k t Ht. unfold mockResponse, commit. cbv zeta.
    cbn [timers with_page]. rewrite setTimer_lookup.
    cbn [timers with_messages]. rewrite clearTimer_lookup.
    split.
    + intros Hk. right. split; [|done]. intros ->.
      rewrite Hk0 in Hk. by simplify_eq.
    + intros [[_ ->]|[_ Hk]]; [|done].
      simpl in Ht. by case_bool_decide.
Qed.

Lemma undisturbed_clearTimer k0 a t0 :
  timers a !! k0 = Some t0 → aims target t0 = false →
  undisturbed target a (clearTimer k0 a).
Proof.
  intros Hk0 Ht0. split; [done|].
  intros k t Ht. rewrite clearTimer_lookup. split; [|by intros [_ ?]].
  intros Hk. split; [|done]. intros ->. congruence.
Qed.

Lemma undisturbed_tick k0 s0 a :
  timers a !! k0 = Some (StreamTick s0) →
  agentMsgId s0 ≠ target →
  undisturbed target a (tick k0 s0 a).
Proof.
  intros Hk0 Hne.
  assert (Hmsg : ∀ p m,
            messages a !! p = Some m → id m = target →
            (appendChar
               (mkStream (agentMsgId s0) (responseText s0) (S (i s0)))
             <$> messages a) !! p = Some m).
  { intros p m Hp Hid. rewrite list_lookup_fmap, Hp. simpl.
    rewrite appendChar_other; [done|simpl; congruence]. }
  assert (Hk : ∀ k t, aims target t = true →
                      timers a !! k = Some t → k ≠ k0).
  { intros k t Ht Hk ->. rewrite Hk0 in Hk. simplify_eq.
    simpl in Ht. by case_bool_decide. }
  unfold tick. case_match; (split; [exact Hmsg|]); intros k t Ht; simpl.
  - rewrite lookup_delete_Some. split; [|by intros [_ ?]].
    intros Hkt. split; [|done]. intros <-. by eapply Hk.
  - rewrite lookup_insert_Some. split.
    + intros Hkt. right. split; [|done]. intros <-. by eapply Hk.
    + intros [[_ <-]|[_ Hkt]]; [|done].
      simpl in Ht. by case_bool_decide.
Qed.

(** Every callback but a tick of an interval that aims at [target],
    and but a mock delay that names its message [target], leaves the
    stream into [target] alone. *)
Lemma dispatch_undisturbed e a :
  mints target e = false →
  (∀ k s, e = Tick k → timers a !! k = Some (StreamTick s) →
          agentMsgId s ≠ target) →
  undisturbed target a (dispatch e a).
Proof.
  intros Hmint Htick. destruct e; simpl.
  - by split.
  - case_match; [apply undisturbed_refl|apply undisturbed_sendMessage].
  - apply undisturbed_sendMessage.
  - destruct (timers a !! k) as [[|s|]|] eqn:Hk;
      try apply undisturbed_refl.
    + apply undisturbed_mockResponse; [done|].
      simpl in Hmint. by case_bool_decide.
    + destruct (undisturbed_clearTimer k a FocusDelay Hk eq_refl)
        as [Hm Ht].
      split; [exact Hm|exact Ht].
  - destruct (timers a !! k) as [[|s|]|] eqn:Hk;
      try apply undisturbed_refl.
    apply undisturbed_tick; [done|]. by eapply Htick.
  - case_match; by split.
  - by split.
  - by split.
  - case_match; [apply undisturbed_refl|].
    split; [done|]. intros k t Ht. unfold handleFocus.
    rewrite setTimer_lookup. cbn [timers with_page].
    split; [by right|]. intros [[_ ->]|Hk]; done.
  - by split.
  - by split.
  - by split.
Qed.

Lemma undisturbed_delivering k p text a a' :
  undisturbed target a a' →
  delivering k p target text a → delivering k p target text a'.
Proof.
  intros [Hm Ht] (s & m & Hk & Hid & Htext & Hp & Hmid & Hc & Hsole).
  exists s, m. repeat split; try done.
  - apply Ht; [|done]. simpl. by case_bool_decide.
  - by apply Hm.
  - intros k' t Hk' Haim. apply (Hsole k' t); [|done]. by apply Ht.
Qed.

Lemma undisturbed_completed p text a a' :
  undisturbed target a a' →
  completed p target text a → completed p target text a'.
Proof.
  intros [Hm Ht] (m & Hp & Hmid & Hc & Hnone).
  exists m. repeat split; try done; [by apply Hm|].
  intros k' t Hk'. destruct (aims target t) eqn:Haim; [|done].
  rewrite <- (Hnone k' t); [done|]. by apply Ht.
Qed.

(** A tick of the stream's own interval appends the unit at the
    incremented counter, and clears the interval when the counter has
    reached the length of the text; that last tick appends nothing. *)
Lemma tick_own k p text a s :
  timers a !! k = Some (StreamTick s) →
  delivering k p target text a →
  (length text ≤ S (i s) →
   completed p target (drop 1 text) (dispatch (Tick k) a))
  ∧ (S (i s) < length text →
     delivering k p target text (dispatch (Tick k) a)
     ∧ timers (dispatch (Tick k) a) !! k
       = Some (StreamTick (mkStream target text (S (i s))))).
Proof.
  intros Hk (s' & m & Hk' & Hid & Htext & Hp & Hmid & Hc & Hsole).
  rewrite Hk in Hk'. injection Hk' as <-.
  assert (Hp' : (appendChar (mkStream target text (S (i s)))
                 <$> messages a) !! p
                = Some (mkMessage target (role m)
                          (delivered text (S (i s))))).
  { rewrite list_lookup_fmap, Hp. simpl.
    rewrite appendChar_target by done. cbn [responseText i].
    by rewrite Hmid, Hc, delivered_charAt. }
  simpl. rewrite Hk. unfold tick. rewrite Htext, Hid. split.
  - intros Hlen. destruct (Nat.leb_spec (length text) (S (i s))); [|lia].
    eexists. split; [exact Hp'|]. simpl. split; [done|].
    split; [by rewrite delivered_ge by lia|].
    intros k' t. rewrite lookup_delete_Some. intros [Hne Hkt].
    destruct (aims target t) eqn:Haim; [|done].
    destruct Hne. symmetry. by eapply Hsole.
  - intros Hlen. destruct (Nat.leb_spec (length text) (S (i s))); [lia|].
    cbn [timers messages commit with_page with_timers with_messages].
    split; [|by rewrite lookup_insert_eq].
    exists (mkStream target text (S (i s))).
    exists (mkMessage target (role m) (delivered text (S (i s)))).
    cbn [timers messages commit with_page with_timers with_messages].
    split; [by rewrite lookup_insert_eq|].
    split; [done|]. split; [done|]. split; [exact Hp'|].
    split; [done|]. split; [done|].
    intros k' t. rewrite lookup_insert_Some.
    intros [[<- _]|[_ Hkt]] Haim; [done|]. by eapply Hsole.
Qed.

End StreamFacts.

Section StreamClaim.

Lemma streamsAt_sole target a k :
  streamsAt target a = [k] →
  ∀ k' t, timers a !! k' = Some t → aims target t = true → k' = k.
Proof.
  intros Hs k' t Hk' Ht.
  assert (Hin : k' ∈ streamsAt target a).
  { unfold streamsAt. apply list_elem_of_fmap. exists (k', t).
    split; [done|]. apply list_elem_of_filter. split; [done|].
    by apply elem_of_map_to_list. }
  rewrite Hs in Hin. by apply list_elem_of_singleton in Hin.
Qed.

Lemma dispatch_stream target k p text e a :
  mints target e = false →
  delivering k p target text a ∨ completed p target (drop 1 text) a →
  delivering k p target text (dispatch e a)
  ∨ completed p target (drop 1 text) (dispatch e a).
Proof.
  intros Hmint [Hd|Hc].
  - destruct Hd as (s & m & Hk & Hid & Htext & Hp & Hmid & Hcont & Hsole).
    assert (Hd : delivering k p target text a)
      by (exists s, m; repeat split; done).
    destruct (decide (e = Tick k)) as [->|Hne].
    + destruct (tick_own target k p text a s Hk Hd) as [Hlast Hnext].
      destruct (Nat.le_gt_cases (length text) (S (i s))) as [Hle|Hgt].
      * right. by apply Hlast.
      * left. by apply Hnext.
    + left. apply (undisturbed_delivering target k p text a); [|done].
      apply dispatch_undisturbed; [done|].
      intros k0 s0 -> Hk0 Haim. apply Hne. f_equal.
      apply (Hsole k0 (StreamTick s0)); [done|].
      simpl. by case_bool_decide.
  - right. apply (undisturbed_completed target p (drop 1 text) a); [|done].
    apply dispatch_undisturbed; [done|].
    intros k0 s0 _ Hk0 Haim.
    destruct Hc as (m & _ & _ & _ & Hnone).
    specialize (Hnone k0 (StreamTick s0) Hk0). simpl in Hnone.
    by case_bool_decide.
Qed.

Lemma run_stream target k p text evs : ∀ a,
  Forall (fun e => mints target e = false) evs →
  delivering k p target text a ∨ completed p target (drop 1 text) a →
  delivering k p target text (run evs a)
  ∨ completed p target (drop 1 text) (run evs a).
Proof.
  induction evs as [|e evs IH]; intros a Hevs Ha; [done|].
  apply Forall_cons in Hevs as [He Hevs]. simpl.
  apply IH; [done|]. by apply dispatch_stream.
Qed.

Lemma run_ticks_completes target k p text n : ∀ a s,
  timers a !! k = Some (StreamTick s) →
  delivering k p target text a →
  n = ticksLeft text (i s) →
  completed p target (drop 1 text) (run (repeat (Tick k) n) a).
Proof.
  induction n as [|n IH]; intros a s Hk Hd Hn;
    [unfold ticksLeft in Hn; lia|].
  destruct (tick_own target k p text a s Hk Hd) as [Hlast Hnext].
  change (run (repeat (Tick k) (S n)) a)
    with (run (repeat (Tick k) n) (dispatch (Tick k) a)).
  destruct (Nat.le_gt_cases (length text) (S (i s))) as [Hle|Hgt].
  - assert (n = 0) as -> by (unfold ticksLeft in Hn; lia).
    by apply Hlast.
  - destruct (Hnext Hgt) as [Hd' Hk'].
    apply (IH _ _ Hk' Hd'). simpl. unfold ticksLeft in *. lia.
Qed.

Lemma streamsAt_none target a :
  streamsAt target a = [] →
  ∀ k t, timers a !! k = Some t → aims target t = false.
Proof.
  intros Hs k t Hk. destruct (aims target t) eqn:Ht; [|done].
  assert (Hin : k ∈ streamsAt target a).
  { unfold streamsAt. apply list_elem_of_fmap. exists (k, t).
    split; [done|]. apply list_elem_of_filter. split; [done|].
    by apply elem_of_map_to_list. }
  rewrite Hs in Hin. by apply not_elem_of_nil in Hin.
Qed.

(** The mock-delay callback starts such a stream: its interval is
    registered with counter 0 and its message, appended at the end of
    the store, is empty; it is the only interval aiming at the id when
    none did before. *)
Lemma mockResponse_delivering a k0 now :
  timers a !! k0 = Some MockDelay →
  streamsAt (toString (now + 1)) a = [] →
  delivering (fresh (dom (timers (clearTimer k0 a)))) (length (messages a))
             (toString (now + 1)) RESPONSE_TEXT
             (dispatch (Timeout k0 now) a).
Proof.
  intros Hk0 Hnone. simpl. rewrite Hk0.
  exists (mkStream (toString (now + 1)) RESPONSE_TEXT 0).
  exists (mkMessage (toString (now + 1)) agent []).
  unfold mockResponse, commit. cbv zeta. cbn [timers messages with_page].
  split; [apply setTimer_lookup; by left|].
  split; [done|]. split; [done|]. split.
  { change (messages (setTimer ?t ?x)) with (messages x).
    cbn [messages with_messages clearTimer with_timers].
    by rewrite lookup_app_r, Nat.sub_diag. }
  split; [done|]. split; [done|].
  intros k' t Hk' Haim. apply setTimer_lookup in Hk'.
  destruct Hk' as [[-> _]|Hk']; [done|].
  cbn [timers with_messages] in Hk'.
  apply clearTimer_lookup in Hk' as [_ Hk'].
  rewrite (streamsAt_none _ _ Hnone k' t Hk') in Haim. done.
Qed.

(** C3.  A stream does not deliver its whole text.  Take an interval
    [k] with closure [s] whose message, at position [p], holds what
    the stream has appended so far, and assume it is the only interval
    that aims at the id.  The updater of a tick runs after the counter
    was incremented, so the tick that finds the counter at [j] appends
    the unit at [j + 1]: the unit at index 0 is never appended, and
    the tick that brings the counter to the length of the text appends
    nothing.  When the ticks that are left have run, no interval aims
    at the id any more and the message holds the text without its
    first unit, which for a text that is not empty is not the text. *)
Theorem stream_drops_first_unit
    (a : App) (k p : nat) (s : Stream) (m : Message) :
  timers a !! k = Some (StreamTick s) →
  streamsAt (agentMsgId s) a = [k] →
  messages a !! p = Some m →
  id m = agentMsgId s →
  content m = delivered (responseText s) (i s) →
  completed p (agentMsgId s) (drop 1 (responseText s))
    (run (repeat (Tick k) (ticksLeft (responseText s) (i s))) a)
  ∧ (responseText s ≠ [] →
     ¬ completed p (agentMsgId s) (responseText s)
         (run (repeat (Tick k) (ticksLeft (responseText s) (i s))) a)).
Proof.
  intros Hk Hsole Hp Hid Hc.
  assert (Hd : delivering k p (agentMsgId s) (responseText s) a).
  { exists s, m. repeat split; try done. by apply streamsAt_sole. }
  pose proof (run_ticks_completes _ _ _ _ _ a s Hk Hd eq_refl) as Hdone.
  split; [exact Hdone|].
  intros Hne (m1 & Hp1 & _ & Hc1 & _).
  destruct Hdone as (m2 & Hp2 & _ & Hc2 & _).
  rewrite Hp1 in Hp2. injection Hp2 as <-. rewrite Hc1 in Hc2.
  apply (f_equal length) in Hc2. rewrite length_drop in Hc2.
  destruct (responseText s); [done|simpl in Hc2; lia].
Qed.

Lemma stream_drops_first_unit_witness :
  completed 1 (toString 1601) (drop 1 RESPONSE_TEXT)
    (run (repeat (Tick 1) 163) sample_streaming)
  ∧ ¬ completed 1 (toString 1601) RESPONSE_TEXT
        (run (repeat (Tick 1) 163) sample_streaming).
Proof.
  destruct (stream_drops_first_unit sample_streaming 1 1
              (mkStream (toString 1601) RESPONSE_TEXT 0)
              (mkMessage (toString 1601) agent [])) as [Hdone Hnot].
  - vm_compute. reflexivity.
  - vm_compute. reflexivity.
  - vm_compute. reflexivity.
  - reflexivity.
  - reflexivity.
  - split; [exact Hdone|]. apply Hnot. discriminate.
Defined.

End StreamClaim.

(** * The streaming flag *)

Section FlagFacts.

Lemma focusTextarea_state a :
  messages (focusTextarea a) = messages a
  ∧ input (focusTextarea a) = input a
  ∧ isStreaming (focusTextarea a) = isStreaming a.
Proof. unfold focusTextarea. by case_match. Qed.

Lemma focusTextarea_old a k t :
  timers a !! k = Some t → timers (focusTextarea a) !! k = Some t.
Proof.
  intros Hk. unfold focusTextarea, handleFocus. case_match; [done|].
  apply setTimer_lookup. by right.
Qed.

Lemma focusTextarea_new a k t :
  timers (focusTextarea a) !! k = Some t →
  t = FocusDelay ∨ timers a !! k = Some t.
Proof.
  unfold focusTextarea, handleFocus. case_match; [by right|].
  rewrite setTimer_lookup. intros [[_ ->]|Hk]; [by left|by right].
Qed.

Lemma sendMessage_accepts now a :
  truthy (trim (input a)) = true →
  messages (sendMessage now a)
  = messages a ++ [mkMessage (toString now) user (input a)]
  ∧ input (sendMessage now a) = []
  ∧ isStreaming (sendMessage now a) = true
  ∧ (∀ k t, timers a !! k = Some t →
            timers (sendMessage now a) !! k = Some t)
  ∧ (∃ k, timers a !! k = None
          ∧ timers (sendMessage now a) !! k = Some MockDelay
          ∧ ∀ k' t, timers (sendMessage now a) !! k' = Some t →
                    isStreamTimer t = true →
                    k' = k ∨ timers a !! k' = Some t).
Proof.
  intros Hin. unfold sendMessage. rewrite Hin. cbn [negb]. cbv zeta.
  set (a3 := with_isStreaming true _).
  destruct (focusTextarea_state a3) as (Hm & Hi & Hs).
  unfold commit.
  cbn [messages input isStreaming timers with_page].
  change (messages (setTimer MockDelay (focusTextarea a3)))
    with (messages (focusTextarea a3)).
  change (input (setTimer MockDelay (focusTextarea a3)))
    with (input (focusTextarea a3)).
  change (isStreaming (setTimer MockDelay (focusTextarea a3)))
    with (isStreaming (focusTextarea a3)).
  rewrite Hm, Hi, Hs.
  split; [done|]. split; [done|]. split; [done|]. split.
  - intros k t Hk. apply setTimer_lookup. right.
    by apply focusTextarea_old.
  - exists (fresh (dom (timers (focusTextarea a3)))).
    pose proof (setTimer_fresh (focusTextarea a3)) as Hfresh.
    split.
    + destruct (timers a !! fresh (dom (timers (focusTextarea a3))))
        as [t|] eqn:Hk; [|done].
      apply (focusTextarea_old a3) in Hk. congruence.
    + split; [apply setTimer_lookup; by left|].
      intros k' t Hk' Ht. apply setTimer_lookup in Hk'.
      destruct Hk' as [[-> _]|Hk']; [by left|].
      apply focusTextarea_new in Hk'.
      destruct Hk' as [->|Hk']; [done|by right].
Qed.

Lemma Click_streaming now a :
  isStreaming a = true → dispatch (Click now) a = dispatch (Enter now) a.
Proof.
  intros Hs. simpl. unfold sendDisabled. by rewrite Hs, andb_false_r.
Qed.

Lemma Click_sendMessage now a :
  dispatch (Click now) a = sendMessage now a.
Proof.
  simpl. unfold sendDisabled, sendMessage.
  by destruct (truthy (trim (input a))), (isStreaming a).
Qed.

Lemma MockDelay_starts_stream a k now :
  timers a !! k = Some MockDelay →
  ∃ k', timers (dispatch (Timeout k now) a) !! k'
        = Some (StreamTick (mkStream (toString (now + 1)) RESPONSE_TEXT 0)).
Proof.
  intros Hk. simpl. rewrite Hk. eexists.
  unfold mockResponse, commit. cbv zeta. cbn [timers with_page].
  apply setTimer_lookup. by left.
Qed.

(** C4 (as amended).  A non-empty submit that finds a stream active
    is accepted like any other, through the Enter key and through the
    send button alike: the user message is appended, the input is
    cleared, the flag stays set and one more mock delay is registered,
    whose callback registers the interval of a further stream.  The
    submit itself leaves every registered timer, so the active stream's
    target id, text and counter, as it was. *)
Theorem submit_while_streaming_is_accepted (a : App) (now : Z) :
  isStreaming a = true →
  truthy (trim (input a)) = true →
  dispatch (Click now) a = dispatch (Enter now) a
  ∧ messages (dispatch (Enter now) a)
    = messages a ++ [mkMessage (toString now) user (input a)]
  ∧ input (dispatch (Enter now) a) = []
  ∧ isStreaming (dispatch (Enter now) a) = true
  ∧ (∀ k t, timers a !! k = Some t →
            timers (dispatch (Enter now) a) !! k = Some t)
  ∧ (∃ k, timers a !! k = None
          ∧ timers (dispatch (Enter now) a) !! k = Some MockDelay
          ∧ ∀ now',
              ∃ k',
                timers (dispatch (Timeout k now') (dispatch (Enter now) a))
                !! k'
                = Some (StreamTick
                          (mkStream (toString (now' + 1)) RESPONSE_TEXT 0))).
Proof.
  intros Hs Hin. split; [by apply Click_streaming|].
  destruct (sendMessage_accepts now a Hin)
    as (Hm & Hi & Hf & Hold & k & Hk & Hk' & _).
  simpl. repeat split; try done. exists k.
  split; [done|]. split; [done|].
  intros now'. by apply MockDelay_starts_stream.
Qed.

End FlagFacts.

Section OverlapFacts.

Lemma submit_while_streaming_is_accepted_witness :
  isStreaming sample_overlap = true
  ∧ messages (dispatch (Enter 1700) sample_overlap)
    = messages sample_overlap
      ++ [mkMessage (toString 1700) user (lit "more")]
  ∧ timers (dispatch (Enter 1700) sample_overlap) !! 1
    = timers sample_overlap !! 1.
Proof.
  assert (Hs : isStreaming sample_overlap = true)
    by (vm_compute; reflexivity).
  assert (Hin : truthy (trim (input sample_overlap)) = true)
    by (vm_compute; reflexivity).
  destruct (submit_while_streaming_is_accepted sample_overlap 1700 Hs Hin)
    as (_ & Hm & _ & _ & Hold & _).
  split; [exact Hs|]. split; [exact Hm|].
  destruct (timers sample_overlap !! 1) as [t|] eqn:Hk.
  - exact (Hold 1 t Hk).
  - vm_compute in Hk. discriminate Hk.
Defined.

(** C4, as stated, fails: with the first stream active (its interval
    is the only one registered), a further non-empty submit is not
    rejected.  It changes the state, the store grows to three
    messages, a mock delay is registered under 2, and when that delay
    runs a second interval is registered next to the first: two
    streams are active at once. *)
Lemma second_submit_starts_second_stream :
  isStreaming sample_overlap = true
  ∧ activeStreams sample_overlap = [1]
  ∧ dispatch (Enter 1700) sample_overlap ≠ sample_overlap
  ∧ length (messages (dispatch (Enter 1700) sample_overlap)) = 3
  ∧ timers (dispatch (Enter 1700) sample_overlap) !! 2 = Some MockDelay
  ∧ activeStreams (run [Enter 1700; Timeout 2 2300] sample_overlap)
    = [2; 1]
  ∧ role <$> messages (run [Enter 1700; Timeout 2 2300] sample_overlap)
    = [user; agent; user; agent].
Proof.
  split; [vm_compute; reflexivity|]. split; [vm_compute; reflexivity|].
  split.
  - intros Heq. apply (f_equal (fun x => length (messages x))) in Heq.
    vm_compute in Heq. discriminate Heq.
  - vm_compute. done.
Qed.

End OverlapFacts.

Section PacedFacts.

Lemma RESPONSE_TEXT_length : length RESPONSE_TEXT = 163.
Proof. reflexivity. Qed.

Lemma truthy_false (s : JsString) : truthy s = false → s = [].
Proof. by destruct s. Qed.

Lemma tick_state k s a :
  messages (tick k s a)
  = appendChar (mkStream (agentMsgId s) (responseText s) (S (i s)))
    <$> messages a
  ∧ (length (responseText s) ≤ S (i s) →
     isStreaming (tick k s a) = false
     ∧ timers (tick k s a) = delete k (timers a))
  ∧ (S (i s) < length (responseText s) →
     isStreaming (tick k s a) = isStreaming a
     ∧ timers (tick k s a)
       = <[k := StreamTick
                  (mkStream (agentMsgId s) (responseText s) (S (i s)))]>
           (timers a)).
Proof.
  unfold tick.
  destruct (Nat.leb_spec (length (responseText s)) (S (i s)));
    (split; [done|]); split; intros; try lia; done.
Qed.

Lemma same_response_refl a : same_response a a.
Proof. done. Qed.

Lemma same_response_clear k a :
  timers a !! k = Some FocusDelay →
  ∀ d, same_response a (with_page d (clearTimer k a)).
Proof.
  intros Hk d. split; [done|]. split; [done|].
  intros k' t Ht. cbn [timers with_page]. rewrite clearTimer_lookup.
  split; [|by intros [_ ?]].
  intros Hk'. split; [|done]. intros ->. rewrite Hk in Hk'.
  by simplify_eq.
Qed.

Lemma same_response_focus a :
  same_response a (handleFocus (with_page (with_focus true (page a)) a)).
Proof.
  split; [done|]. split; [done|].
  intros k t Ht. unfold handleFocus. rewrite setTimer_lookup.
  cbn [timers with_page].
  split; [by right|]. by intros [[_ ->]|Hk].
Qed.

Lemma same_response_idle a a' : same_response a a' → idle a → idle a'.
Proof.
  intros (Hm & Hs & Ht) (Hf & Hnone & Hans).
  split; [congruence|]. split.
  - intros k t Hk. destruct (isStreamTimer t) eqn:Hst; [|done].
    apply Ht in Hk; [|done]. rewrite <- Hst. by eapply Hnone.
  - unfold answered in *. by rewrite Hm.
Qed.

Lemma same_response_waiting a a' :
  same_response a a' → waiting a → waiting a'.
Proof.
  intros (Hm & Hs & Ht) (Hf & (k & Hk & Hsole) & Hlast).
  split; [congruence|]. split.
  - exists k. split; [by apply Ht|].
    intros k' t Hk' Hst. apply (Hsole k' t); [|done]. by apply Ht.
  - by rewrite Hm.
Qed.

Lemma same_response_streaming a a' :
  same_response a a' → streaming a → streaming a'.
Proof.
  intros (Hm & Hs & Ht) (Hf & k & s & m & Hk & Hsole & Hrest).
  split; [congruence|]. exists k, s, m.
  split; [by apply Ht|]. split.
  - intros k' t Hk' Hst. apply (Hsole k' t); [|done]. by apply Ht.
  - by rewrite Hm.
Qed.

Lemma same_response_paced_inv a a' :
  same_response a a' → paced_inv a → paced_inv a'.
Proof.
  intros Hsame [Hi|[Hw|Hs]].
  - left. by eapply same_response_idle.
  - right; left. by eapply same_response_waiting.
  - right; right. by eapply same_response_streaming.
Qed.

(** A submit accepted in the idle state leads to the waiting state. *)
Lemma idle_sendMessage now a :
  idle a → truthy (trim (input a)) = true → waiting (sendMessage now a).
Proof.
  intros (_ & Hnone & _) Hin.
  destruct (sendMessage_accepts now a Hin)
    as (Hm & _ & Hf & _ & k & _ & Hk & Hnew).
  split; [done|]. split.
  - exists k. split; [done|]. intros k' t Hk' Hst.
    destruct (Hnew k' t Hk' Hst) as [|Hold]; [done|].
    rewrite (Hnone k' t Hold) in Hst. done.
  - rewrite Hm, last_snoc. by eexists.
Qed.

(** The mock delay that runs in the waiting state starts the stream. *)
Lemma waiting_mockResponse now k a :
  waiting a → timers a !! k = Some MockDelay →
  streaming (mockResponse now (clearTimer k a)).
Proof.
  intros (Hf & (k0 & _ & Hsole) & _) Hk.
  split; [done|].
  exists (fresh (dom (timers (clearTimer k a)))).
  exists (mkStream (toString (now + 1)) RESPONSE_TEXT 0).
  exists (mkMessage (toString (now + 1)) agent []).
  unfold mockResponse, commit. cbv zeta.
  cbn [timers messages with_page].
  split; [apply setTimer_lookup; by left|]. split.
  - intros k' t Hk' Hst. apply setTimer_lookup in Hk'.
    destruct Hk' as [[-> _]|Hk']; [done|].
    cbn [timers with_messages] in Hk'.
    apply clearTimer_lookup in Hk' as [Hne Hk'].
    destruct Hne. rewrite (Hsole k' t Hk' Hst).
    symmetry. by apply (Hsole k MockDelay).
  - split; [done|]. split; [rewrite RESPONSE_TEXT_length; simpl; lia|].
    split; [|done].
    change (messages (setTimer ?t ?x)) with (messages x).
    cbn [messages with_messages clearTimer with_timers].
    by rewrite last_snoc.
Qed.

(** A tick in the streaming state appends the unit at the incremented
    counter; the tick that brings the counter to the length of the
    text clears the flag and the interval. *)
Lemma streaming_tick k s a :
  streaming a → timers a !! k = Some (StreamTick s) →
  (length (responseText s) ≤ S (i s) → idle (tick k s a))
  ∧ (S (i s) < length (responseText s) → streaming (tick k s a)).
Proof.
  intros (Hf & k0 & s0 & m & Hk0 & Hsole & Htext & Hi & Hlast & Hid
          & Hrole & Hc) Hk.
  assert (k = k0) as -> by by apply (Hsole k (StreamTick s)).
  rewrite Hk in Hk0. injection Hk0 as <-.
  destruct (tick_state k0 s a) as (Hm & Hdone & Hnext).
  assert (Hlast' : last (messages (tick k0 s a))
                   = Some (mkMessage (id m) agent
                             (delivered RESPONSE_TEXT (S (i s))))).
  { rewrite Hm, fmap_last, Hlast. simpl.
    rewrite appendChar_target by done. cbn [responseText i].
    by rewrite Hrole, Hc, Htext, delivered_charAt. }
  split; intros Hlen.
  - destruct (Hdone Hlen) as [Hf' Ht']. split; [done|]. split.
    + intros k' t. rewrite Ht', lookup_delete_Some. intros [Hne Hk'].
      destruct (isStreamTimer t) eqn:Hst; [|done].
      destruct Hne. symmetry. by apply (Hsole k' t).
    + right. eexists. split; [exact Hlast'|]. split; [done|].
      cbn [content]. rewrite Htext in Hlen. apply delivered_ge. lia.
  - destruct (Hnext Hlen) as [Hf' Ht']. split; [congruence|].
    exists k0, (mkStream (agentMsgId s) (responseText s) (S (i s))).
    eexists. rewrite Ht'.
    split; [by rewrite lookup_insert_eq|]. split.
    + intros k' t. rewrite lookup_insert_Some.
      intros [[<- _]|[_ Hk']] Hst; [done|]. by apply (Hsole k' t).
    + split; [done|]. split; [cbn [i]; by rewrite <- Htext|].
      split; [exact Hlast'|]. done.
Qed.

End PacedFacts.

Section FlagClaim.

Lemma dispatch_paced_inv e a :
  overlapping e a = false → paced_inv a → paced_inv (dispatch e a).
Proof.
  intros Hov Hinv.
  assert (Hsubmit : ∀ now, overlapping (Enter now) a = false →
                           paced_inv (sendMessage now a)).
  { intros now Ho. simpl in Ho.
    destruct (truthy (trim (input a))) eqn:Hin.
    - rewrite andb_true_r in Ho. destruct Hinv as [Hi|[Hw|Hs]].
      + right; left. by apply idle_sendMessage.
      + destruct Hw as [Hf _]. congruence.
      + destruct Hs as [Hf _]. congruence.
    - rewrite sendMessage_blank; [done|]. by apply truthy_false. }
  assert (Hpage : ∀ d, paced_inv (with_page d a)).
  { intros d. apply (same_response_paced_inv a); [by split|done]. }
  destruct e.
  - apply (same_response_paced_inv a); [by split|done].
  - rewrite Click_sendMessage. by apply Hsubmit.
  - by apply Hsubmit.
  - simpl. destruct (timers a !! k) as [[|s|]|] eqn:Hk; try done.
    + right; right. apply waiting_mockResponse; [|done].
      destruct Hinv as [Hi|[Hw|Hs]]; [|done|].
      * destruct Hi as (_ & Hnone & _).
        by specialize (Hnone k MockDelay Hk).
      * destruct Hs as (_ & k0 & s0 & m & Hk0 & Hsole & _).
        assert (k = k0) as -> by by apply (Hsole k MockDelay).
        congruence.
    + apply (same_response_paced_inv a); [|done].
      by apply same_response_clear.
  - simpl. destruct (timers a !! k) as [[|s|]|] eqn:Hk; try done.
    assert (Hs : streaming a).
    { destruct Hinv as [Hi|[Hw|Hs]]; [| |done].
      - destruct Hi as (_ & Hnone & _).
        by specialize (Hnone k (StreamTick s) Hk).
      - destruct Hw as (_ & (k0 & Hk0 & Hsole) & _).
        assert (k = k0) as -> by by apply (Hsole k (StreamTick s)).
        congruence. }
    destruct (streaming_tick k s a Hs Hk) as [Hdone Hnext].
    destruct (Nat.le_gt_cases (length (responseText s)) (S (i s)));
      [left|right; right]; auto.
  - simpl. case_match; [apply Hpage|done].
  - apply Hpage.
  - apply Hpage.
  - simpl. case_match; [done|].
    apply (same_response_paced_inv a); [apply same_response_focus|done].
  - apply Hpage.
  - apply Hpage.
  - apply Hpage.
Qed.

Lemma run_paced_inv evs : ∀ a,
  paced evs a = true → paced_inv a → paced_inv (run evs a).
Proof.
  induction evs as [|e evs IH]; intros a Hp Hinv; [done|].
  simpl in Hp. apply andb_true_iff in Hp as [Ho Hp].
  apply negb_true_iff in Ho. simpl.
  apply IH; [done|]. by apply dispatch_paced_inv.
Qed.

Lemma mount_idle vv m : idle (mount vv m).
Proof.
  split; [done|]. split; [|by left].
  intros k t Hk. unfold mount in Hk. simpl in Hk.
  by rewrite lookup_empty in Hk.
Qed.


Lemma paced_inv_idle a : paced_inv a → isStreaming a = false → idle a.
Proof.
  intros [Hi|[(Hf & _)|(Hf & _)]] Hoff; [done|congruence|congruence].
Qed.






End FlagClaim.

(** * How a stream ends *)

Section CompletionFacts.

(** The host never runs an interval that is not registered: a tick for
    a cleared or unknown id changes nothing. *)
Lemma cleared_interval_never_ticks a k :
  timers a !! k = None → dispatch (Tick k) a = a.
Proof. intros Hk. simpl. by rewrite Hk. Qed.

(** The component clears an interval at one place only, the tick that
    brings the counter to the length of the text.  Every other callback
    leaves a registered interval registered, with its closure. *)
Lemma interval_cleared_only_by_last_tick e a k s :
  timers a !! k = Some (StreamTick s) →
  timers (dispatch e a) !! k = Some (StreamTick s)
  ∨ (e = Tick k
     ∧ ((S (i s) < length (responseText s)
         ∧ timers (dispatch e a) !! k
           = Some (StreamTick
                     (mkStream (agentMsgId s) (responseText s) (S (i s)))))
        ∨ (length (responseText s) ≤ S (i s)
           ∧ timers (dispatch e a) !! k = None))).
Proof.
  intros Hk. destruct e; try by left.
  - left. rewrite Click_sendMessage. by apply sendMessage_timers.
  - left. by apply sendMessage_timers.
  - left. simpl. destruct (timers a !! k0) as [[|s0|]|] eqn:Hk0; try done.
    + unfold mockResponse, commit. cbv zeta. cbn [timers with_page].
      apply setTimer_lookup. right. cbn [timers with_messages].
      apply clearTimer_lookup. split; [|done]. intros ->. congruence.
    + cbn [timers with_page]. apply clearTimer_lookup.
      split; [|done]. intros ->. congruence.
  - simpl. destruct (timers a !! k0) as [[|s0|]|] eqn:Hk0;
      try by left.
    destruct (tick_state k0 s0 a) as (_ & Hdone & Hnext).
    destruct (decide (k0 = k)) as [->|Hne].
    + right. split; [done|]. rewrite Hk in Hk0. injection Hk0 as <-.
      destruct (Nat.le_gt_cases (length (responseText s)) (S (i s)))
        as [Hle|Hgt].
      * right. split; [done|].
        destruct (Hdone Hle) as [_ ->]. apply lookup_delete_eq.
      * left. split; [done|].
        destruct (Hnext Hgt) as [_ ->]. apply lookup_insert_eq.
    + left.
      destruct (Nat.le_gt_cases (length (responseText s0)) (S (i s0)))
        as [Hle|Hgt].
      * destruct (Hdone Hle) as [_ ->]. by rewrite lookup_delete_ne.
      * destruct (Hnext Hgt) as [_ ->]. by rewrite lookup_insert_ne.
  - left. simpl. by destruct (visualViewport (page a)).
  - left. simpl. destruct (textareaFocused (page a)); [done|].
    unfold handleFocus. apply setTimer_lookup. by right.
Qed.

End CompletionFacts.

(** * More of the component: what the page keeps *)

Section PageExtras.

Lemma sendMessage_touch now a :
  isTouchingRef (page (sendMessage now a)) = isTouchingRef (page a).
Proof.
  unfold sendMessage, focusTextarea, handleFocus, commit, setTimer.
  by repeat case_match.
Qed.

Lemma dispatch_touch e a :
  isTouchingRef (page (dispatch e a))
  = match e with
    | TouchStart => true
    | TouchEnd => false
    | _ => isTouchingRef (page a)
    end.
Proof.
  destruct e; simpl; try done.
  - case_match; [done|apply sendMessage_touch].
  - apply sendMessage_touch.
  - repeat case_match; try done. simpl. unfold focusCallback.
    case_match; [|done]. simpl.
    by destruct (handleResize_env (page a)) as (_ & _ & ->).
  - repeat case_match; try done. unfold tick, commit. by case_match.
  - case_match; [|done]. simpl.
    by destruct (handleResize_env (with_visualViewport (Some vv) (page a)))
      as (_ & _ & ->).
  - unfold handleFocus, setTimer. by case_match.
Qed.

(** X1.  The touch flag is written by the two touch listeners and by
    nothing else: after any run of callbacks it tells whether the last
    touch event of the run was a [touchstart], and it is the flag the
    run began with when the run has no touch event. *)
Theorem touch_flag_follows_touch_events (evs : list Event) (a : App) :
  isTouchingRef (page (run evs a))
  = lastTouch (isTouchingRef (page a)) evs.
Proof.
  revert a. induction evs as [|e evs IH]; intros a; [done|].
  simpl. rewrite IH, dispatch_touch. by destruct e.
Qed.

Lemma sendMessage_degraded now a :
  containerRef (page (sendMessage now a)) = containerRef (page a)
  ∧ visualViewport (page (sendMessage now a)) = visualViewport (page a).
Proof. apply sendMessage_panel. Qed.

Lemma dispatch_degraded e a c :
  containerRef (page a) = c → visualViewport (page a) = None →
  containerRef (page (dispatch e a)) = c
  ∧ visualViewport (page (dispatch e a)) = None.
Proof.
  intros Hc Hv. destruct e; simpl; try done.
  - case_match; [done|].
    by destruct (sendMessage_panel now a) as [-> ->].
  - by destruct (sendMessage_panel now a) as [-> ->].
  - repeat case_match; try done.
    simpl. unfold focusCallback. by rewrite Hv.
  - repeat case_match; try done. unfold tick, commit. by case_match.
  - by rewrite Hv.
  - unfold handleFocus, setTimer. by case_match.
Qed.

Lemma run_degraded evs : ∀ a c,
  containerRef (page a) = c → visualViewport (page a) = None →
  containerRef (page (run evs a)) = c
  ∧ visualViewport (page (run evs a)) = None.
Proof.
  induction evs as [|e evs IH]; intros a c Hc Hv; [done|].
  destruct (dispatch_degraded e a c Hc Hv) as [Hc' Hv'].
  exact (IH _ _ Hc' Hv').
Qed.

(** X2.  On a platform without [window.visualViewport] the component
    degrades without failing: in every run from the first render the
    panel keeps the style of the JSX, height ['100%'] and no transform,
    a geometry event changes nothing, and the callback of the focus
    delay leaves the page as it is, the scroll position included. *)
Theorem degraded_platform_keeps_fallback
    (m : ScrollArea) (evs : list Event) :
  containerRef (page (run evs (mount None m)))
  = Some (mkStyle Full NoTransform)
  ∧ (∀ vv, dispatch (Geometry vv) (run evs (mount None m))
           = run evs (mount None m))
  ∧ (∀ k now,
       timers (run evs (mount None m)) !! k = Some FocusDelay →
       page (dispatch (Timeout k now) (run evs (mount None m)))
       = page (run evs (mount None m))).
Proof.
  destruct (run_degraded evs (mount None m) (Some (mkStyle Full NoTransform))
              eq_refl eq_refl) as [Hc Hv].
  split; [done|]. split.
  - intros vv. simpl. by rewrite Hv.
  - intros k now Hk. simpl. rewrite Hk. simpl.
    unfold focusCallback. by rewrite Hv.
Qed.

Lemma degraded_platform_keeps_fallback_witness :
  page (dispatch (Timeout 0 0) sample_degraded) = page sample_degraded.
Proof.
  apply (proj2 (proj2 (degraded_platform_keeps_fallback
                         (mkScrollArea 0 1000 500)
                         [Focus; Layout 1000 500; Scroll 450]))).
  vm_compute. reflexivity.
Defined.

End PageExtras.

(** * More of the component: the submit path *)

Section SubmitExtras.

Lemma trimStart_Exists (s : JsString) :
  Exists (fun c => isWhiteSpace c = false) s → trimStart s ≠ [].
Proof.
  induction 1 as [c s Hc|c s _ IH]; simpl.
  - by rewrite Hc.
  - by destruct (isWhiteSpace c).
Qed.

Lemma trimStart_suffix (s : JsString) : trimStart s `suffix_of` s.
Proof.
  induction s as [|c s IH]; simpl; [done|].
  destruct (isWhiteSpace c); [by apply suffix_cons_r|done].
Qed.

Lemma trimStart_head (s : JsString) c s' :
  trimStart s = c :: s' → isWhiteSpace c = false.
Proof.
  induction s as [|c0 s IH]; simpl; [done|].
  destruct (isWhiteSpace c0) eqn:Hc0; [done|]. by intros [= <- _].
Qed.

Lemma trim_Exists (s : JsString) :
  Exists (fun c => isWhiteSpace c = false) s → trim s ≠ [].
Proof.
  intros Hs. unfold trim, trimEnd.
  destruct (trimStart s) as [|c s'] eqn:Hts.
  { by apply trimStart_Exists in Hs. }
  intros Hnil. apply (f_equal reverse) in Hnil.
  rewrite reverse_involutive in Hnil. revert Hnil.
  apply trimStart_Exists. rewrite reverse_cons.
  apply Exists_app. right. constructor. by eapply trimStart_head.
Qed.

Lemma truthy_trim (s : JsString) :
  truthy (trim s) = true ↔ Exists (fun c => isWhiteSpace c = false) s.
Proof.
  split.
  - intros Ht.
    destruct (decide (Exists (fun c => isWhiteSpace c = false) s))
      as [|Hno]; [done|].
    apply not_Exists_Forall in Hno; [|solve_decision].
    rewrite trim_blank in Ht; [done|].
    eapply Forall_impl; [exact Hno|]. simpl. intros c.
    by destruct (isWhiteSpace c).
  - intros Hs. apply trim_Exists in Hs. by destruct (trim s).
Qed.

Lemma scrollEffect_focus d :
  textareaFocused (scrollEffect d) = textareaFocused d.
Proof. unfold scrollEffect. by repeat case_match. Qed.

Lemma sendMessage_focus now a :
  truthy (trim (input a)) = true →
  textareaFocused (page (sendMessage now a)) = true.
Proof.
  intros Hin. unfold sendMessage. rewrite Hin. cbn [negb]. cbv zeta.
  unfold commit. cbn [page with_page]. rewrite scrollEffect_focus.
  unfold focusTextarea, handleFocus, setTimer. cbn [page with_isStreaming].
  cbn [page with_input with_messages].
  by destruct (textareaFocused (page a)) eqn:Hf.
Qed.

(** X3.  A submit is accepted exactly when the input holds a code unit
    that is not white space, and then the state changes: the message
    stored is the input as it was typed, leading and trailing white
    space included, under the decimal rendering of the clock reading;
    the input is emptied and the textarea is the active element. *)
Theorem submit_accepted_iff_not_blank (a : App) (now : Z) :
  (dispatch (Enter now) a ≠ a
   ↔ Exists (fun c => isWhiteSpace c = false) (input a))
  ∧ (Exists (fun c => isWhiteSpace c = false) (input a) →
     messages (dispatch (Enter now) a)
     = messages a ++ [mkMessage (toString now) user (input a)]
     ∧ input (dispatch (Enter now) a) = []
     ∧ textareaFocused (page (dispatch (Enter now) a)) = true).
Proof.
  assert (Hacc : Exists (fun c => isWhiteSpace c = false) (input a) →
     messages (dispatch (Enter now) a)
     = messages a ++ [mkMessage (toString now) user (input a)]
     ∧ input (dispatch (Enter now) a) = []
     ∧ textareaFocused (page (dispatch (Enter now) a)) = true).
  { intros Hs. apply truthy_trim in Hs. simpl.
    destruct (sendMessage_accepts now a Hs) as (Hm & Hi & _).
    split; [done|]. split; [done|]. by apply sendMessage_focus. }
  split; [|done]. split.
  - intros Hne.
    destruct (truthy (trim (input a))) eqn:Hin; [by apply truthy_trim|].
    destruct Hne. simpl. apply sendMessage_blank. by apply truthy_false.
  - intros Hs Heq. destruct (Hacc Hs) as (Hm & _). rewrite Heq in Hm.
    apply (f_equal length) in Hm. rewrite length_app in Hm. simpl in Hm. lia.
Qed.

Lemma submit_accepted_iff_not_blank_witness :
  messages (dispatch (Enter 7)
              (with_input (lit " hi ") sample_mount))
  = messages (with_input (lit " hi ") sample_mount)
    ++ [mkMessage (toString 7) user
          (input (with_input (lit " hi ") sample_mount))].
Proof.
  apply (proj2 (submit_accepted_iff_not_blank
                  (with_input (lit " hi ") sample_mount) 7)).
  apply Exists_cons_tl, Exists_cons_hd. reflexivity.
Defined.

(** X4.  The Enter key without Shift and the send button are one
    control: in every state, streaming or not, blank input or not, the
    key does to the component and to the textarea what a click does,
    and it is the only key that prevents the default action.  Any other
    key, Shift+Enter included, leaves the component as it is. *)
Theorem enter_key_submits_like_button
    (e : KeyboardEvent) (now : Z) (c : Composer) :
  ((handleKeyDown e now (app c)).1 = true
   ↔ key e = lit "Enter" ∧ shiftKey e = false)
  ∧ handle (KeyDown e now) c
    = if (handleKeyDown e now (app c)).1
      then handle (Pressed now) c
      else c.
Proof.
  unfold handle, handleKeyDown.
  destruct (bool_decide (key e = lit "Enter")) eqn:Hk;
    destruct (shiftKey e); simpl.
  - split; [|by destruct c]. split; [done|by intros [_ ?]].
  - apply bool_decide_eq_true in Hk. split; [done|].
    unfold sendDisabled, resetTextarea.
    destruct (truthy (trim (input (app c)))) eqn:Hin; simpl; [done|].
    rewrite sendMessage_blank by by apply truthy_false.
    destruct (isStreaming (app c)); by destruct c.
  - apply bool_decide_eq_false in Hk.
    split; [|by destruct c]. split; [done|by intros [? _]].
  - apply bool_decide_eq_false in Hk.
    split; [|by destruct c]. split; [done|by intros [? _]].
Qed.

End SubmitExtras.

(** * More of the component: the intervals of the mock response *)

Section StreamExtras.

Lemma ticksOf_cons k e evs :
  ticksOf k (e :: evs)
  = (if decide (e = Tick k) then 1 else 0) + ticksOf k evs.
Proof.
  unfold ticksOf. rewrite filter_cons. by destruct (decide (e = Tick k)).
Qed.

(** X5.  An interval counts its own ticks and nothing else moves it.
    Whatever callbacks run in between, submits and other streams
    included, as long as its ticks have not brought the counter to the
    length of the text the interval is still registered under its id,
    aims at the same message with the same text, and its counter has
    advanced by exactly the number of its ticks in the run. *)
Theorem interval_counts_its_ticks
    (evs : list Event) (a : App) (k : nat) (s : Stream) :
  timers a !! k = Some (StreamTick s) →
  i s + ticksOf k evs < length (responseText s) →
  timers (run evs a) !! k
  = Some (StreamTick
            (mkStream (agentMsgId s) (responseText s)
                      (i s + ticksOf k evs))).
Proof.
  revert a s. induction evs as [|e evs IH]; intros a s Hk Hlen.
  { simpl. unfold ticksOf. simpl. rewrite Nat.add_0_r. by destruct s. }
  rewrite ticksOf_cons in Hlen |- *.
  change (run (e :: evs) a) with (run evs (dispatch e a)).
  destruct (interval_cleared_only_by_last_tick e a k s Hk)
    as [Hsame|[-> [[Hlt Hnext]|[Hle _]]]].
  - destruct (decide (e = Tick k)) as [->|Hne].
    + simpl in Hsame. rewrite Hk in Hsame.
      destruct (tick_state k s a) as (_ & _ & Hnext).
      destruct Hnext as [_ Ht]; [lia|].
      rewrite Ht, lookup_insert_eq in Hsame. injection Hsame as Hs.
      apply (f_equal i) in Hs. simpl in Hs. lia.
    + rewrite (IH _ _ Hsame) by (simpl in *; lia). done.
  - rewrite decide_True in * by done.
    rewrite (IH _ _ Hnext) by (simpl in *; lia).
    simpl. do 3 f_equal. lia.
  - rewrite decide_True in Hlen by done. lia.
Qed.

Lemma interval_counts_its_ticks_witness :
  timers (run [Tick 1; Change (lit "more"); Enter 1700; Tick 1;
               Timeout 2 2300; Tick 2; Tick 1; Scroll 10]
              sample_streaming) !! 1
  = Some (StreamTick
            (mkStream (agentMsgId (mkStream (toString 1601) RESPONSE_TEXT 0))
               (responseText (mkStream (toString 1601) RESPONSE_TEXT 0))
               (i (mkStream (toString 1601) RESPONSE_TEXT 0)
                + ticksOf 1 [Tick 1; Change (lit "more"); Enter 1700; Tick 1;
                             Timeout 2 2300; Tick 2; Tick 1; Scroll 10]))).
Proof.
  apply (interval_counts_its_ticks
           [Tick 1; Change (lit "more"); Enter 1700; Tick 1;
            Timeout 2 2300; Tick 2; Tick 1; Scroll 10]
           sample_streaming 1 (mkStream (toString 1601) RESPONSE_TEXT 0)).
  - vm_compute. reflexivity.
  - vm_compute. lia.
Defined.

Lemma sendMessage_interval now a k s :
  timers (sendMessage now a) !! k = Some (StreamTick s) →
  timers a !! k = Some (StreamTick s).
Proof. intros Hk. by apply (sendMessage_timers now a k (StreamTick s)). Qed.

(** Where a registered interval comes from: it was registered before
    the callback with the same closure, or the callback is its own
    tick and has advanced its counter, or the callback is a mock delay
    and has just created it, with the canned text and the counter 0. *)
Lemma dispatch_interval_origin e a k s' :
  timers (dispatch e a) !! k = Some (StreamTick s') →
  timers a !! k = Some (StreamTick s')
  ∨ (∃ s, e = Tick k ∧ timers a !! k = Some (StreamTick s)
          ∧ S (i s) < length (responseText s)
          ∧ s' = mkStream (agentMsgId s) (responseText s) (S (i s)))
  ∨ (∃ k0 now, e = Timeout k0 now ∧ timers a !! k0 = Some MockDelay
               ∧ s' = mkStream (toString (now + 1)) RESPONSE_TEXT 0).
Proof.
  intros Hk. destruct e; try by left.
  - left. rewrite Click_sendMessage in Hk. by eapply sendMessage_interval.
  - left. by eapply sendMessage_interval.
  - simpl in Hk. destruct (timers a !! k0) as [[|s0|]|] eqn:Hk0;
      try by left.
    + unfold mockResponse, commit in Hk. cbv zeta in Hk.
      cbn [timers with_page] in Hk. apply setTimer_lookup in Hk.
      destruct Hk as [[_ [= ->]]|Hk].
      * right; right. by exists k0, now.
      * left. cbn [timers with_messages] in Hk.
        by apply clearTimer_lookup in Hk as [_ Hk].
    + left. cbn [timers with_page] in Hk.
      by apply clearTimer_lookup in Hk as [_ Hk].
  - simpl in Hk. destruct (timers a !! k0) as [[|s0|]|] eqn:Hk0;
      try by left.
    destruct (tick_state k0 s0 a) as (_ & Hdone & Hnext).
    destruct (Nat.le_gt_cases (length (responseText s0)) (S (i s0)))
      as [Hle|Hgt].
    + left. destruct (Hdone Hle) as [_ Ht]. rewrite Ht in Hk.
      by apply lookup_delete_Some in Hk as [_ Hk].
    + destruct (Hnext Hgt) as [_ Ht]. rewrite Ht in Hk.
      apply lookup_insert_Some in Hk as [[<- [= <-]]|[_ Hk]]; [|by left].
      right; left. by exists s0.
  - left. simpl in Hk. by destruct (visualViewport (page a)).
  - left. simpl in Hk. destruct (textareaFocused (page a)); [done|].
    unfold handleFocus in Hk. apply setTimer_lookup in Hk.
    by destruct Hk as [[_ ?]|Hk].
Qed.

Lemma dispatch_intervals_in_range e a :
  intervals_in_range a → intervals_in_range (dispatch e a).
Proof.
  intros Hin k s' Hk.
  destruct (dispatch_interval_origin e a k s' Hk)
    as [Hold|[(s & _ & Hs & Hlt & ->)|(k0 & now & _ & _ & ->)]].
  - by apply (Hin k).
  - destruct (Hin k s Hs) as [Ht Hi]. cbn [responseText i].
    split; [done|]. by rewrite <- Ht.
  - cbn [responseText i]. split; [done|].
    rewrite RESPONSE_TEXT_length. lia.
Qed.

Lemma run_intervals_in_range evs : ∀ a,
  intervals_in_range a → intervals_in_range (run evs a).
Proof.
  induction evs as [|e evs IH]; intros a Ha; [done|].
  apply (IH (dispatch e a)). by apply dispatch_intervals_in_range.
Qed.

Lemma mount_intervals_in_range vv m : intervals_in_range (mount vv m).
Proof. intros k s Hk. unfold mount in Hk. simpl in Hk. done. Qed.

(** X6.  What a tick appends.  In every run from the first render,
    overlapping streams included, each registered interval delivers
    the canned response and its counter is below the length of the
    text.  Its next tick appends to each message that carries its id
    the unit that follows the counter, the one at the index counter
    plus one, and leaves every other message as it is; the unit at
    index 0 is appended by no tick, and the tick that finds the
    counter at the last index reads past the end of the text and
    appends nothing. *)
Theorem every_tick_appends_unit_after_counter
    (vv : option VisualViewport) (m : ScrollArea) (evs : list Event)
    (k : nat) (s : Stream) :
  timers (run evs (mount vv m)) !! k = Some (StreamTick s) →
  responseText s = RESPONSE_TEXT
  ∧ i s < length RESPONSE_TEXT
  ∧ messages (dispatch (Tick k) (run evs (mount vv m)))
    = (fun msg =>
         if bool_decide (id msg = agentMsgId s)
         then mkMessage (id msg) (role msg)
                (content msg ++ match RESPONSE_TEXT !! S (i s) with
                                | Some c => [c]
                                | None => []
                                end)
         else msg) <$> messages (run evs (mount vv m))
  ∧ (RESPONSE_TEXT !! S (i s) = None ↔ S (i s) = length RESPONSE_TEXT).
Proof.
  intros Hk.
  destruct (run_intervals_in_range evs _ (mount_intervals_in_range vv m)
              k s Hk) as [Ht Hi].
  split; [done|]. split; [done|]. split.
  - simpl. rewrite Hk.
    destruct (tick_state k s (run evs (mount vv m))) as (-> & _).
    apply list_fmap_ext. intros _ msg _. unfold appendChar, charAt.
    cbn [agentMsgId responseText i]. by rewrite Ht.
  - rewrite lookup_ge_None. lia.
Qed.

Lemma every_tick_appends_unit_after_counter_witness :
  responseText (mkStream (toString 1601) RESPONSE_TEXT 2) = RESPONSE_TEXT
  ∧ i (mkStream (toString 1601) RESPONSE_TEXT 2) < length RESPONSE_TEXT
  ∧ messages
      (dispatch (Tick 1)
         (run [Focus; Change (lit "hi"); Enter 1000; Timeout 1 1600;
               Tick 1; Tick 1]
              (mount (Some (mkVisualViewport 800 0))
                     (mkScrollArea 0 1000 500))))
    = (fun msg =>
         if bool_decide
              (id msg
               = agentMsgId (mkStream (toString 1601) RESPONSE_TEXT 2))
         then mkMessage (id msg) (role msg)
                (content msg
                 ++ match RESPONSE_TEXT
                          !! S (i (mkStream (toString 1601) RESPONSE_TEXT 2))
                    with
                    | Some c => [c]
                    | None => []
                    end)
         else msg)
      <$> messages
            (run [Focus; Change (lit "hi"); Enter 1000;
                  Timeout 1 1600; Tick 1; Tick 1]
                 (mount (Some (mkVisualViewport 800 0))
                        (mkScrollArea 0 1000 500)))
  ∧ (RESPONSE_TEXT !! S (i (mkStream (toString 1601) RESPONSE_TEXT 2))
     = None
     ↔ S (i (mkStream (toString 1601) RESPONSE_TEXT 2))
       = length RESPONSE_TEXT).
Proof.
  apply (every_tick_appends_unit_after_counter
           (Some (mkVisualViewport 800 0)) (mkScrollArea 0 1000 500)
           [Focus; Change (lit "hi"); Enter 1000; Timeout 1 1600;
            Tick 1; Tick 1] 1 (mkStream (toString 1601) RESPONSE_TEXT 2)).
  vm_compute. reflexivity.
Defined.

End StreamExtras.

(** * More of the component: runs in which the user waits for the answer *)

Section PacedExtras.

Lemma paced_inv_MockDelay a k :
  paced_inv a → timers a !! k = Some MockDelay → waiting a.
Proof.
  intros [Hi|[Hw|Hs]] Hk; [|done|].
  - destruct Hi as (_ & Hnone & _). by specialize (Hnone k MockDelay Hk).
  - destruct Hs as (_ & k0 & s0 & m & Hk0 & Hsole & _).
    assert (k = k0) as -> by by apply (Hsole k MockDelay).
    congruence.
Qed.

Lemma paced_inv_intervals a k k' s s' :
  paced_inv a →
  timers a !! k = Some (StreamTick s) →
  timers a !! k' = Some (StreamTick s') → k = k'.
Proof.
  intros [Hi|[Hw|Hs]] Hk Hk'.
  - destruct Hi as (_ & Hnone & _).
    by specialize (Hnone k (StreamTick s) Hk).
  - destruct Hw as (_ & (k0 & Hk0 & Hsole) & _).
    assert (k = k0) as -> by by apply (Hsole k (StreamTick s)).
    congruence.
  - destruct Hs as (_ & k0 & s0 & m & _ & Hsole & _).
    rewrite (Hsole k (StreamTick s)), (Hsole k' (StreamTick s')); done.
Qed.

Lemma activeStreams_elem a k :
  k ∈ activeStreams a ↔ ∃ s, timers a !! k = Some (StreamTick s).
Proof.
  unfold activeStreams. rewrite list_elem_of_fmap. split.
  - intros ([k0 t] & -> & Hin). apply list_elem_of_filter in Hin as [Ht Hin].
    apply elem_of_map_to_list in Hin. simpl in *.
    destruct t; try done. by eexists.
  - intros [s Hk]. exists (k, StreamTick s). split; [done|].
    apply list_elem_of_filter. split; [done|].
    by apply elem_of_map_to_list.
Qed.

Lemma activeStreams_NoDup a : NoDup (activeStreams a).
Proof.
  unfold activeStreams.
  apply NoDup_fmap_fst.
  - intros k t t' [_ H]%list_elem_of_filter [_ H']%list_elem_of_filter.
    apply elem_of_map_to_list in H, H'. congruence.
  - apply NoDup_filter, NoDup_map_to_list.
Qed.

(** X7.  In a run from the first render in which no submit is made
    while a response is pending, the mock response never runs two
    intervals at a time: at every callback boundary at most one
    interval is registered. *)
Theorem paced_run_has_one_stream
    (vv : option VisualViewport) (m : ScrollArea) (evs : list Event) :
  paced evs (mount vv m) = true →
  length (activeStreams (run evs (mount vv m))) ≤ 1.
Proof.
  intros Hp.
  assert (Hinv : paced_inv (run evs (mount vv m))).
  { apply run_paced_inv; [done|]. left. apply mount_idle. }
  pose proof (activeStreams_NoDup (run evs (mount vv m))) as Hnd.
  destruct (activeStreams (run evs (mount vv m))) as [|k [|k' l]] eqn:Hl;
    simpl; [lia|lia|].
  assert (Hk : k ∈ activeStreams (run evs (mount vv m)))
    by (rewrite Hl; constructor).
  assert (Hk' : k' ∈ activeStreams (run evs (mount vv m)))
    by (rewrite Hl; do 2 constructor).
  apply activeStreams_elem in Hk as [s Hk], Hk' as [s' Hk'].
  pose proof (paced_inv_intervals _ _ _ _ _ Hinv Hk Hk') as ->.
  apply NoDup_cons in Hnd as [Hnotin _]. destruct Hnotin. constructor.
Qed.

Lemma paced_run_has_one_stream_witness :
  length (activeStreams
            (run [Focus; Change (lit "hi"); Enter 1000; Timeout 1 1600;
                  Tick 1; Tick 1; Scroll 40]
                 (mount (Some (mkVisualViewport 800 0))
                        (mkScrollArea 0 1000 500)))) ≤ 1.
Proof.
  apply (paced_run_has_one_stream
           (Some (mkVisualViewport 800 0)) (mkScrollArea 0 1000 500)
           [Focus; Change (lit "hi"); Enter 1000; Timeout 1 1600;
            Tick 1; Tick 1; Scroll 40]).
  vm_compute. reflexivity.
Defined.

Lemma inTurn_snoc (rs : list Role) : ∀ (e r : Role),
  inTurn e (rs ++ [r])
  = inTurn e rs
    && bool_decide (r = match last rs with
                        | Some x => other x
                        | None => e
                        end).
Proof.
  induction rs as [|x rs IH]; intros e r.
  { simpl. by rewrite andb_true_r. }
  change (inTurn e ((x :: rs) ++ [r]))
    with (bool_decide (x = e) && inTurn (other e) (rs ++ [r])).
  rewrite IH. cbn [inTurn]. rewrite andb_assoc.
  destruct rs as [|y rs].
  - simpl. case_bool_decide as Hx; [by subst|done].
  - rewrite last_cons_cons.
    destruct (last (y :: rs)) eqn:Hlast; [done|].
    by apply last_None in Hlast.
Qed.

Lemma dialogue_snoc (l : list Message) (x : Message) :
  inTurn user (role <$> l) = true →
  (l = [] ∧ role x = user)
  ∨ (∃ m, last l = Some m ∧ role x = other (role m)) →
  inTurn user (role <$> (l ++ [x])) = true.
Proof.
  intros Hl Hx. rewrite fmap_app. simpl. rewrite inTurn_snoc, Hl, fmap_last.
  destruct Hx as [[-> ->]|(m & -> & ->)]; simpl;
    first [done|by apply bool_decide_eq_true_2].
Qed.

Lemma dispatch_dialogue_inv e a :
  overlapping e a = false → dialogue_inv a → dialogue_inv (dispatch e a).
Proof.
  intros Hov [Hinv Hturn]. split; [by apply dispatch_paced_inv|].
  assert (Hsubmit : ∀ now, overlapping (Enter now) a = false →
            inTurn user (role <$> messages (sendMessage now a)) = true).
  { intros now Ho. simpl in Ho.
    destruct (truthy (trim (input a))) eqn:Hin.
    - rewrite andb_true_r in Ho.
      destruct (sendMessage_accepts now a Hin) as (-> & _).
      apply dialogue_snoc; [done|].
      destruct (paced_inv_idle a Hinv Ho)
        as (_ & _ & [Hnil|(m & Hlast & Hr & _)]).
      + by left.
      + right. exists m. split; [done|]. by rewrite Hr.
    - rewrite sendMessage_blank; [done|]. by apply truthy_false. }
  destruct e; try done.
  - rewrite Click_sendMessage. by apply Hsubmit.
  - by apply Hsubmit.
  - simpl. destruct (timers a !! k) as [[|s|]|] eqn:Hk; try done.
    destruct (paced_inv_MockDelay a k Hinv Hk)
      as (_ & _ & m & Hlast & Hr).
    unfold mockResponse, commit. cbv zeta. cbn [messages with_page].
    change (messages (setTimer ?t ?x)) with (messages x).
    cbn [messages with_messages clearTimer with_timers].
    apply dialogue_snoc; [done|]. right. exists m.
    split; [done|]. by rewrite Hr.
  - simpl. destruct (timers a !! k) as [[|s|]|] eqn:Hk; try done.
    destruct (tick_state k s a) as (-> & _).
    rewrite <- list_fmap_compose.
    erewrite list_fmap_ext; [exact Hturn|].
    intros _ msg _. apply appendChar_role.
  - simpl. by case_match.
  - simpl. unfold handleFocus, setTimer. by case_match.
Qed.

Lemma run_dialogue_inv evs : ∀ a,
  paced evs a = true → dialogue_inv a → dialogue_inv (run evs a).
Proof.
  induction evs as [|e evs IH]; intros a Hp Hinv; [done|].
  simpl in Hp. apply andb_true_iff in Hp as [Ho Hp].
  apply negb_true_iff in Ho.
  apply (IH (dispatch e a)); [done|]. by apply dispatch_dialogue_inv.
Qed.

(** X8.  In a run from the first render in which no submit is made
    while a response is pending, the store is a dialogue: the first
    message is the user's and the roles alternate, every user message
    but a last one being followed by its answer. *)
Theorem paced_run_is_a_dialogue
    (vv : option VisualViewport) (m : ScrollArea) (evs : list Event) :
  paced evs (mount vv m) = true →
  inTurn user (role <$> messages (run evs (mount vv m))) = true.
Proof.
  intros Hp. apply run_dialogue_inv; [done|].
  split; [left; apply mount_idle|done].
Qed.

Lemma paced_run_is_a_dialogue_witness :
  inTurn user
    (role <$> messages
       (run [Focus; Change (lit "hi"); Enter 1000; Timeout 1 1600;
             Tick 1; Tick 1; Scroll 40]
            (mount (Some (mkVisualViewport 800 0))
                   (mkScrollArea 0 1000 500)))) = true.
Proof.
  apply (paced_run_is_a_dialogue
           (Some (mkVisualViewport 800 0)) (mkScrollArea 0 1000 500)
           [Focus; Change (lit "hi"); Enter 1000; Timeout 1 1600;
            Tick 1; Tick 1; Scroll 40]).
  vm_compute. reflexivity.
Defined.

End PacedExtras.

(** * More of the component: the ids of the messages *)

Section IdExtras.

Lemma lit_inj (s1 s2 : string) : lit s1 = lit s2 → s1 = s2.
Proof.
  assert (Hunits : ∀ l, map ascii_of_N (map N_of_ascii l) = l).
  { induction l as [|c l IH]; simpl; [done|].
    by rewrite ascii_N_embedding, IH. }
  unfold lit. intros H.
  apply (f_equal (map ascii_of_N)) in H. rewrite !Hunits in H.
  apply (f_equal string_of_list_ascii) in H.
  by rewrite !string_of_list_ascii_of_string in H.
Qed.

Lemma to_int_proper (n : Z) :
  Z.to_int n ≠ Decimal.Pos Decimal.Nil ∧ Z.to_int n ≠ Decimal.Neg Decimal.Nil.
Proof.
  destruct n as [|p|p]; simpl; split; try done.
  - intros [= H]. by apply DecimalPos.Unsigned.to_uint_nonnil in H.
  - intros [= H]. by apply DecimalPos.Unsigned.to_uint_nonnil in H.
Qed.

(** The decimal rendering tells numbers apart. *)
Lemma toString_inj (n n' : Z) : toString n = toString n' → n = n'.
Proof.
  unfold toString. intros H%lit_inj.
  apply DecimalZ.to_int_inj.
  destruct (to_int_proper n) as [Hp Hn], (to_int_proper n') as [Hp' Hn'].
  apply (f_equal NilZero.int_of_string) in H.
  rewrite !DecimalString.NilZero.isi in H by done. by injection H.
Qed.

Lemma minted_snoc e a n :
  minted e a = Some n →
  ∃ x, messages (dispatch e a) = messages a ++ [x] ∧ id x = toString n.
Proof.
  destruct e; simpl; try done.
  - destruct (truthy (trim (input a))) eqn:Hin; [|done]. intros [= ->].
    pose proof (Click_sendMessage n a) as Hc. simpl in Hc. rewrite Hc.
    destruct (sendMessage_accepts n a Hin) as (-> & _). by eexists.
  - destruct (truthy (trim (input a))) eqn:Hin; [|done]. intros [= ->].
    destruct (sendMessage_accepts n a Hin) as (-> & _). by eexists.
  - destruct (timers a !! k) as [[|s|]|] eqn:Hk; try done. intros [= <-].
    by eexists.
Qed.

Lemma minted_none e a :
  minted e a = None → id <$> messages (dispatch e a) = id <$> messages a.
Proof.
  destruct e; simpl; try done.
  - destruct (truthy (trim (input a))) eqn:Hin; [done|]. intros _.
    pose proof (Click_sendMessage now a) as Hc. simpl in Hc. rewrite Hc.
    by rewrite sendMessage_blank by by apply truthy_false.
  - destruct (truthy (trim (input a))) eqn:Hin; [done|]. intros _.
    by rewrite sendMessage_blank by by apply truthy_false.
  - by destruct (timers a !! k) as [[|s|]|] eqn:Hk.
  - intros _. destruct (timers a !! k) as [[|s|]|] eqn:Hk; try done.
    destruct (tick_state k s a) as (-> & _).
    rewrite <- list_fmap_compose. apply list_fmap_ext.
    intros _ msg _. apply appendChar_id.
  - intros _. by case_match.
  - intros _. unfold handleFocus, setTimer. by case_match.
Qed.

Lemma run_ascending evs : ∀ bound a,
  ascending bound evs a = true →
  Forall (fun x => ∃ n, id x = toString n ∧ (n ≤ bound)%Z) (messages a) →
  NoDup (id <$> messages a) →
  NoDup (id <$> messages (run evs a)).
Proof.
  induction evs as [|e evs IH]; intros bound a Hasc Hb Hnd; [done|].
  simpl in Hasc. change (run (e :: evs) a) with (run evs (dispatch e a)).
  destruct (minted e a) as [n|] eqn:Hm.
  - apply andb_true_iff in Hasc as [Hlt Hasc]. apply Z.ltb_lt in Hlt.
    destruct (minted_snoc e a n Hm) as (x & Hx & Hid).
    apply (IH n); [done| |].
    + rewrite Hx. apply Forall_app. split.
      * eapply Forall_impl; [exact Hb|]. simpl.
        intros y (n' & Hy & Hle). exists n'. split; [done|lia].
      * constructor; [|done]. exists n. split; [done|lia].
    + rewrite Hx, fmap_app. apply NoDup_app. split; [done|]. split.
      * intros y Hy Hy'. simpl in Hy'. apply list_elem_of_singleton in Hy'.
        apply list_elem_of_fmap in Hy as (z & -> & Hz).
        rewrite Forall_forall in Hb. destruct (Hb z Hz) as (n' & Hz' & Hle).
        rewrite Hy', Hid in Hz'. apply toString_inj in Hz'. lia.
      * simpl. apply NoDup_singleton.
  - apply (IH bound); [done| |].
    + apply Forall_forall. intros x Hx.
      assert (Hin : id x ∈ id <$> messages a).
      { rewrite <- (minted_none e a Hm).
        apply list_elem_of_fmap. by exists x. }
      apply list_elem_of_fmap in Hin as (z & Hz & Hin).
      rewrite Forall_forall in Hb. destruct (Hb z Hin) as (n & Hn & Hle).
      exists n. split; [congruence|done].
    + by rewrite (minted_none e a Hm).
Qed.

(** X9.  The ids of the store are pairwise distinct in every run from
    the first render in which each clock reading that names a message,
    the reading of an accepted submit and the successor of the reading
    of a mock-delay callback, is greater than the ones used before. *)
Theorem ascending_readings_give_distinct_ids
    (vv : option VisualViewport) (m : ScrollArea)
    (bound : Z) (evs : list Event) :
  ascending bound evs (mount vv m) = true →
  NoDup (id <$> messages (run evs (mount vv m))).
Proof.
  intros Hasc. apply (run_ascending evs bound); [done|done|constructor].
Qed.

Lemma ascending_readings_give_distinct_ids_witness :
  NoDup (id <$> messages
           (run [Focus; Change (lit "hi"); Enter 1000; Timeout 1 1600;
                 Tick 1; Change (lit "more"); Enter 1700; Timeout 2 2300]
                (mount (Some (mkVisualViewport 800 0))
                       (mkScrollArea 0 1000 500)))).
Proof.
  apply (ascending_readings_give_distinct_ids
           (Some (mkVisualViewport 800 0)) (mkScrollArea 0 1000 500) 0
           [Focus; Change (lit "hi"); Enter 1000; Timeout 1 1600;
            Tick 1; Change (lit "more"); Enter 1700; Timeout 2 2300]).
  vm_compute. reflexivity.
Defined.

(** X10.  The ids are not unique by construction.  The agent message
    created by a mock-delay callback at the reading [now] is named
    after [now + 1]; a message submitted at the reading [now + 1] gets
    the same id, and two messages of the store then share it.  More
    generally an agent message and a user message share their id
    exactly when the submit was made one unit after the callback. *)
Theorem submit_one_unit_later_reuses_id
    (a : App) (k : nat) (now now' : Z) (value : JsString) :
  timers a !! k = Some MockDelay →
  truthy (trim value) = true →
  ∃ x y,
    messages (run [Timeout k now; Change value; Enter now'] a)
    = messages a ++ [x; y]
    ∧ role x = agent ∧ role y = user
    ∧ (id x = id y ↔ now' = (now + 1)%Z).
Proof.
  intros Hk Hv.
  exists (mkMessage (toString (now + 1)) agent []),
         (mkMessage (toString now') user value).
  split; [|split; [done|split; [done|]]].
  - change (run [Timeout k now; Change value; Enter now'] a)
      with (sendMessage now'
              (handleInput value (dispatch (Timeout k now) a))).
    destruct (sendMessage_accepts now'
                (handleInput value (dispatch (Timeout k now) a)) Hv)
      as (-> & _).
    cbn [input handleInput with_input messages].
    simpl. rewrite Hk. unfold mockResponse, commit. cbv zeta.
    cbn [messages with_page].
    change (messages (setTimer ?t ?x)) with (messages x).
    cbn [messages with_messages clearTimer with_timers].
    by rewrite <- app_assoc.
  - simpl. split; [intros H%toString_inj; lia|by intros ->].
Qed.

Lemma submit_one_unit_later_reuses_id_witness :
  ∃ x y,
    messages (run [Timeout 1 1600; Change (lit "more"); Enter 1601]
                  (run [Focus; Change (lit "hi"); Enter 1000] sample_mount))
    = messages (run [Focus; Change (lit "hi"); Enter 1000] sample_mount)
      ++ [x; y]
    ∧ role x = agent ∧ role y = user
    ∧ (id x = id y ↔ 1601%Z = (1600 + 1)%Z).
Proof.
  apply (submit_one_unit_later_reuses_id
           (run [Focus; Change (lit "hi"); Enter 1000] sample_mount)
           1 1600 1601 (lit "more")).
  - vm_compute. reflexivity.
  - vm_compute. reflexivity.
Defined.

End IdExtras.

(** * More of the component: the textarea *)

Section ComposerExtras.

Lemma resetTextarea_capped a h : capped h → capped (resetTextarea a h).
Proof. intros Hh. unfold resetTextarea. by case_match. Qed.

Lemma handle_capped x c :
  capped (textareaHeight c) → capped (textareaHeight (handle x c)).
Proof.
  intros Hc. destruct x as [value natural|e now|now|e]; simpl.
  - apply Z.le_min_r.
  - unfold handleKeyDown. case_match; simpl; [|done].
    by apply resetTextarea_capped.
  - case_match; simpl; [done|]. by apply resetTextarea_capped.
  - by destruct e.
Qed.

(** X11.  The textarea never grows past 150 px.  After any run of
    callbacks from the first render its height is ['auto'] or at most
    150 px; typing sets it to the smaller of 150 px and the height the
    text needs; an accepted submit puts it back to ['auto'], and a
    blank one, which returns before the reset, leaves it as it is. *)
Theorem textarea_height_is_capped
    (vv : option VisualViewport) (m : ScrollArea) (xs : list Input) :
  capped (textareaHeight (compose xs (composer0 vv m)))
  ∧ (∀ value natural,
       textareaHeight
         (handle (Typed value natural) (compose xs (composer0 vv m)))
       = Pixels (Z.min natural 150))
  ∧ (∀ now,
       textareaHeight (handle (Pressed now) (compose xs (composer0 vv m)))
       = if truthy (trim (input (app (compose xs (composer0 vv m)))))
         then Auto
         else textareaHeight (compose xs (composer0 vv m))).
Proof.
  split; [|split].
  - assert (Hrun : ∀ c, capped (textareaHeight c) →
                        capped (textareaHeight (compose xs c))).
    { induction xs as [|x xs IH]; intros c Hc; [done|].
      apply (IH (handle x c)). by apply handle_capped. }
    by apply Hrun.
  - done.
  - intros now. simpl. unfold sendDisabled, resetTextarea.
    destruct (truthy (trim (input (app (compose xs (composer0 vv m))))));
      simpl; [done|].
    by destruct (isStreaming (app (compose xs (composer0 vv m)))).
Qed.

End ComposerExtras.

(** * The variant that positions the panel with [top] *)

Section ToppedExtras.

Lemma topped_handleResize_panel p c :
  Topped.containerRef p = Some c →
  Topped.containerRef (Topped.handleResize p)
  = Some (Topped.mkPanel (Px (height (Topped.visualViewport p)))
                         (offsetTop (Topped.visualViewport p)))
  ∧ Topped.visualViewport (Topped.handleResize p) = Topped.visualViewport p.
Proof.
  intros Hc. unfold Topped.handleResize. rewrite Hc. simpl.
  by destruct (Topped.textareaFocused p).
Qed.

Lemma topped_dispatch_panel e p vv0 :
  Topped.containerRef p
  = Some (Topped.mkPanel (Px (height vv0)) (offsetTop vv0)) →
  Topped.visualViewport p = vv0 →
  Topped.containerRef (Topped.dispatch e p)
  = Some (Topped.mkPanel
            (Px (height (Topped.lastGeometry vv0 [e])))
            (offsetTop (Topped.lastGeometry vv0 [e])))
  ∧ Topped.visualViewport (Topped.dispatch e p)
    = Topped.lastGeometry vv0 [e].
Proof.
  intros Hc Hv. destruct e; simpl; try done.
  - by apply (topped_handleResize_panel
                (Topped.mkPage (Topped.containerRef p)
                   (Topped.scrollAreaRef p) vv (Topped.textareaFocused p)
                   (Topped.scrollTimers p))
                (Topped.mkPanel (Px (height vv0)) (offsetTop vv0))).
  - by destruct (Topped.scrollTimers p).
Qed.

Lemma topped_run_panel evs : ∀ p vv0,
  Topped.containerRef p
  = Some (Topped.mkPanel (Px (height vv0)) (offsetTop vv0)) →
  Topped.visualViewport p = vv0 →
  Topped.containerRef (Topped.run evs p)
  = Some (Topped.mkPanel
            (Px (height (Topped.lastGeometry vv0 evs)))
            (offsetTop (Topped.lastGeometry vv0 evs))).
Proof.
  induction evs as [|e evs IH]; intros p vv0 Hc Hv; [done|].
  destruct (topped_dispatch_panel e p vv0 Hc Hv) as [Hc' Hv'].
  exact (IH _ _ Hc' Hv').
Qed.

(** X12.  In the variant that writes [style.top], at every callback
    boundary of every run from the first render the panel has the
    height and the top of the latest geometry event, or of the initial
    sync when there was none. *)
Theorem topped_panel_shows_last_geometry
    (vv : VisualViewport) (m : ScrollArea) (evs : list Topped.Event) :
  Topped.containerRef (Topped.run evs (Topped.mount vv m))
  = Some (Topped.mkPanel
            (Px (height (Topped.lastGeometry vv evs)))
            (offsetTop (Topped.lastGeometry vv evs))).
Proof. by apply topped_run_panel. Qed.

Lemma topped_handleResize_scrollArea p :
  Topped.scrollAreaRef (Topped.handleResize p) = Topped.scrollAreaRef p.
Proof.
  unfold Topped.handleResize. destruct (Topped.containerRef p); [|done].
  simpl. by destruct (Topped.textareaFocused p).
Qed.

Lemma topped_dispatch_timers e p :
  Topped.scrollTimers (Topped.dispatch e p) + Topped.fired [e] p
  = Topped.scrollTimers p + Topped.scheduled [e] p.
Proof.
  destruct e; simpl; try lia.
  - unfold Topped.handleResize. simpl.
    destruct (Topped.containerRef p); simpl; [|lia].
    destruct (Topped.textareaFocused p); simpl; lia.
  - destruct (Topped.scrollTimers p) eqn:Hn; simpl; lia.
Qed.

(** X13.  In that variant a geometry event never moves the list
    itself: it leaves the scroll position as it finds it and, when the
    textarea is the active element, schedules one callback.  Callbacks
    are neither lost nor doubled: over any run, those pending at the
    end and those that ran are those pending at the start and those
    scheduled.  A callback that runs puts the list at its bottom
    whatever the distance from the bottom and the focus are by then. *)
Theorem topped_scroll_correction_is_deferred
    (evs : list Topped.Event) (p : Topped.Page) :
  (∀ vv, Topped.scrollAreaRef (Topped.dispatch (Topped.Geometry vv) p)
         = Topped.scrollAreaRef p)
  ∧ Topped.scrollTimers (Topped.run evs p) + Topped.fired evs p
    = Topped.scrollTimers p + Topped.scheduled evs p
  ∧ (∀ m, Topped.scrollTimers p ≠ 0 →
          Topped.scrollAreaRef p = Some m →
          Topped.scrollAreaRef (Topped.dispatch Topped.Timeout p)
          = Some (jumpToBottom m)).
Proof.
  split; [|split].
  - intros vv. simpl. by rewrite topped_handleResize_scrollArea.
  - revert p. induction evs as [|e evs IH]; intros p; [simpl; lia|].
    change (Topped.run (e :: evs) p)
      with (Topped.run evs (Topped.dispatch e p)).
    pose proof (topped_dispatch_timers e p) as He.
    specialize (IH (Topped.dispatch e p)).
    simpl in *. lia.
  - intros m Hn Hm. simpl.
    destruct (Topped.scrollTimers p); [done|]. simpl. by rewrite Hm.
Qed.

Lemma topped_scroll_correction_is_deferred_witness :
  Topped.scrollAreaRef
    (Topped.dispatch Topped.Timeout
       (Topped.run [Topped.Focus; Topped.Geometry (mkVisualViewport 500 0);
                    Topped.Scroll 100]
                   (Topped.mount (mkVisualViewport 800 0)
                                 (mkScrollArea 0 1000 500))))
  = Some (jumpToBottom (mkScrollArea 100 1000 500)).
Proof.
  apply (proj2 (proj2 (topped_scroll_correction_is_deferred []
           (Topped.run [Topped.Focus; Topped.Geometry (mkVisualViewport 500 0);
                        Topped.Scroll 100]
                       (Topped.mount (mkVisualViewport 800 0)
                                     (mkScrollArea 0 1000 500)))))).
  - vm_compute. lia.
  - vm_compute. reflexivity.
Defined.

End ToppedExtras.

(** * The variant that keeps the height in React state *)

Section SizedExtras.

Lemma sized_handleResize_height h s :
  Sized.viewportHeight (Sized.handleResize h s) = Px h.
Proof.
  unfold Sized.handleResize, Sized.heightEffect.
  destruct (decide (Sized.viewportHeight s = Px h)) as [He|Hne]; simpl;
    [done|]. by destruct (Sized.scrollAreaRef s).
Qed.

Lemma sized_dispatch_height e s :
  Sized.viewportHeight (Sized.dispatch e s)
  = Sized.lastHeight (Sized.viewportHeight s) [e].
Proof.
  destruct e; simpl; try done.
  - apply sized_handleResize_height.
  - by destruct (Sized.scrollTimers s).
Qed.

(** X14.  In the variant that renders [viewportHeight], the height
    rendered after any run of callbacks is the last height the visual
    viewport reported, or the one rendered before the run when it
    reported none; every report returns the window to its origin; and
    a report of the height already rendered is absorbed, the state
    after it being the one a single report gives. *)
Theorem sized_height_is_last_report (evs : list Sized.Event) (s : Sized.State) :
  Sized.viewportHeight (Sized.run evs s)
  = Sized.lastHeight (Sized.viewportHeight s) evs
  ∧ (∀ h, Sized.windowScroll (Sized.handleResize h s) = (0, 0)%Z
          ∧ Sized.handleResize h (Sized.handleResize h s)
            = Sized.handleResize h s).
Proof.
  split.
  - revert s. induction evs as [|e evs IH]; intros s; [done|].
    change (Sized.run (e :: evs) s) with (Sized.run evs (Sized.dispatch e s)).
    rewrite IH, sized_dispatch_height. done.
  - intros h. split.
    + unfold Sized.handleResize, Sized.heightEffect.
      destruct (decide (Sized.viewportHeight s = Px h)); simpl; [done|].
      by destruct (Sized.scrollAreaRef s).
    + unfold Sized.handleResize at 1.
      rewrite sized_handleResize_height, decide_True by done.
      unfold Sized.handleResize, Sized.heightEffect.
      destruct (decide (Sized.viewportHeight s = Px h)) as [He|Hne]; simpl;
        [by rewrite He|].
      by destruct (Sized.scrollAreaRef s).
Qed.

Lemma sized_dispatch_mounted e s :
  is_Some (Sized.scrollAreaRef s) →
  is_Some (Sized.scrollAreaRef (Sized.dispatch e s)).
Proof.
  intros [m Hm]. destruct e; simpl.
  - unfold Sized.handleResize, Sized.heightEffect.
    destruct (decide (Sized.viewportHeight s = Px h)); simpl;
      rewrite ?Hm; simpl; eauto.
  - destruct (Sized.scrollTimers s); simpl; rewrite Hm; simpl; eauto.
  - rewrite Hm. simpl. eauto.
  - rewrite Hm. eauto.
  - rewrite Hm. simpl. eauto.
  - rewrite Hm. simpl. eauto.
Qed.

Lemma sized_dispatch_timers e s :
  is_Some (Sized.scrollAreaRef s) →
  Sized.scrollTimers (Sized.dispatch e s) + Sized.fired [e] s
  = Sized.scrollTimers s + Sized.changes [e] s.
Proof.
  intros [m Hm]. destruct e; simpl; try lia.
  - unfold Sized.handleResize, Sized.heightEffect.
    destruct (decide (Sized.viewportHeight s = Px h)); simpl;
      rewrite ?Hm; simpl; lia.
  - destruct (Sized.scrollTimers s) eqn:Hn; simpl; lia.
Qed.

(** X15.  In that variant the deferred scroll to the bottom is tied to
    changes of the height, not to reports: with the list mounted, over
    any run the callbacks pending at the end and those that ran are
    those pending at the start and one for each report of a height
    that differs from the one rendered when it arrives.  A report of
    the height already rendered schedules nothing. *)
Theorem sized_scroll_follows_height_changes
    (evs : list Sized.Event) (s : Sized.State) :
  is_Some (Sized.scrollAreaRef s) →
  Sized.scrollTimers (Sized.run evs s) + Sized.fired evs s
  = Sized.scrollTimers s + Sized.changes evs s.
Proof.
  revert s. induction evs as [|e evs IH]; intros s Hm; [simpl; lia|].
  change (Sized.run (e :: evs) s) with (Sized.run evs (Sized.dispatch e s)).
  pose proof (sized_dispatch_timers e s Hm) as He.
  specialize (IH (Sized.dispatch e s) (sized_dispatch_mounted e s Hm)).
  simpl in *. lia.
Qed.

Lemma sized_scroll_follows_height_changes_witness :
  Sized.scrollTimers
    (Sized.run [Sized.Geometry 500; Sized.Geometry 500; Sized.Timeout;
                Sized.Pan 0 40; Sized.Geometry 800]
               (Sized.mkState Full (Some (mkScrollArea 0 1000 500))
                              (0, 0)%Z 0))
  + Sized.fired [Sized.Geometry 500; Sized.Geometry 500; Sized.Timeout;
                 Sized.Pan 0 40; Sized.Geometry 800]
                (Sized.mkState Full (Some (mkScrollArea 0 1000 500))
                               (0, 0)%Z 0)
  = Sized.scrollTimers
      (Sized.mkState Full (Some (mkScrollArea 0 1000 500)) (0, 0)%Z 0)
    + Sized.changes [Sized.Geometry 500; Sized.Geometry 500; Sized.Timeout;
                     Sized.Pan 0 40; Sized.Geometry 800]
                    (Sized.mkState Full (Some (mkScrollArea 0 1000 500))
                                   (0, 0)%Z 0).
Proof.
  apply (sized_scroll_follows_height_changes
           [Sized.Geometry 500; Sized.Geometry 500; Sized.Timeout;
            Sized.Pan 0 40; Sized.Geometry 800]
           (Sized.mkState Full (Some (mkScrollArea 0 1000 500)) (0, 0)%Z 0)).
  simpl. by eexists.
Defined.

End SizedExtras.
